(** * progress-tracker: embedding similarity search (services/aiService.js)

    A shallow embedding of the retrieval core of the two AI services of the
    repository, [AIService] (Gemini) and [GCPService] (Vertex AI):
    [cosineSimilarity], [generateEmbedding], [searchSimilarBugs] and the
    context block of [generateBugSolution].

    JavaScript numbers are IEEE 754 binary64 values: they are modelled by
    Rocq's primitive [float], whose operations are specified bit for bit by
    [SpecFloat].  [cosineSimilarity] is written once over the arithmetic it
    uses, so that the same text can also be read in exact real arithmetic. *)

From Stdlib Require Import Reals Lra.
From Stdlib Require Import String Ascii Floats ZArith Bool Lia.
From Stdlib Require Import DecimalString List Sorted Permutation.
Import ListNotations.

Set Warnings "-inexact-float".

(** ** The arithmetic used by the similarity computation *)

(** What [cosineSimilarity] asks of its numbers: the literal [0], [+], [*],
    [/], [Math.sqrt], the test [x === 0], and the number an arithmetic
    operator makes of [undefined] (an array read past the end). *)
Class JsNumber (N : Type) : Type := {
  num_zero : N;
  num_add : N -> N -> N;
  num_mul : N -> N -> N;
  num_div : N -> N -> N;
  num_sqrt : N -> N;
  num_is_zero : N -> bool;
  num_undefined : N
}.

(** The numbers of the running program: binary64.  [x === 0] is IEEE
    equality (true of [-0], false of NaN); [undefined] coerces to NaN. *)
#[export] Instance float_JsNumber : JsNumber float := {
  num_zero := 0%float;
  num_add := PrimFloat.add;
  num_mul := PrimFloat.mul;
  num_div := PrimFloat.div;
  num_sqrt := PrimFloat.sqrt;
  num_is_zero := fun x => PrimFloat.eqb x 0%float;
  num_undefined := PrimFloat.nan
}.


Section Cosine.
Context {N : Type} `{JsNumber N}.

(** One iteration of the loop body (aiService.js, lines 245-247 and
    498-500): [vecA[i]] and [vecB[i]] are read by index. *)
Definition loop_body (vecA vecB : list N) (acc : N * N * N) (i : nat)
  : N * N * N :=
  let '(dotProduct, normA, normB) := acc in
  let a := nth i vecA num_undefined in
  let b := nth i vecB num_undefined in
  (num_add dotProduct (num_mul a b),
   num_add normA (num_mul a a),
   num_add normB (num_mul b b)).

(** [for (let i = 0; i < vecA.length; i++) { ... }] started from
    [dotProduct = normA = normB = 0]. *)
Definition dot_and_norms (vecA vecB : list N) : N * N * N :=
  fold_left (loop_body vecA vecB) (seq 0 (length vecA))
            (num_zero, num_zero, num_zero).

(** The loop seen as one pass over the two arrays side by side. *)
Fixpoint zip_sums (vecA vecB : list N) (acc : N * N * N) : N * N * N :=
  match vecA, vecB with
  | a :: vecA', b :: vecB' =>
      let '(dotProduct, normA, normB) := acc in
      zip_sums vecA' vecB'
               (num_add dotProduct (num_mul a b),
                num_add normA (num_mul a a),
                num_add normB (num_mul b b))
  | _, _ => acc
  end.
End Cosine.

(** ** Stored items, scored matches, completions *)

(** A bug document (models/Bug.js) as the services read it: the descriptive
    payload and the optional embedding. *)
Record Bug : Type := {
  title : string;
  description : string;
  solution : string;
  tags : list string;
  embedding : option (list float)
}.

(** The object [{ bug, similarity }] built per candidate. *)
Record ScoredMatch : Type := {
  bug : Bug;
  similarity : float
}.

(** How a function body ends: with a value, or by throwing. *)
Inductive completion (A : Type) : Type :=
| Return (a : A)
| Throw (message : string).
Arguments Return {A} a.
Arguments Throw {A} message.

Definition bind {A B : Type} (c : completion A) (k : A -> completion B)
  : completion B :=
  match c with
  | Return a => k a
  | Throw m => Throw m
  end.

(** [try { body } catch (error) { handler(error) }] *)
Definition try_catch {A : Type} (body : completion A)
  (handler : string -> completion A) : completion A :=
  match body with
  | Return a => Return a
  | Throw m => handler m
  end.

(** What the embedding call of the provider SDK does: it throws, or it
    yields the field the service reads, which may be missing. *)
Inductive embed_reply : Type :=
| EmbedError (message : string)
| EmbedValues (values : option (list float)).

Definition EmbeddingProvider : Type := string -> embed_reply.

(** [x.length === 0] after [!x ||]: an absent or empty array. *)
Definition absent_or_empty {A : Type} (x : option (list A)) : bool :=
  match x with
  | None => true
  | Some [] => true
  | Some (_ :: _) => false
  end.

(** [arr.map(f)]: a TypeError when [arr] is not there. *)
Definition array_map {A B : Type} (f : A -> B) (arr : option (list A))
  : completion (list B) :=
  match arr with
  | Some l => Return (map f l)
  | None => Throw "TypeError: Cannot read properties of undefined (reading 'map')"
  end.

(** [Array.prototype.sort(comparefn)].  ECMAScript fixes the result for a
    consistent comparator: the stable sort.  A comparator answer of NaN
    counts as [+0] (SortCompare), so an element moves behind another only
    when [comparefn] answers above zero.  Insertion sort realises this
    (lemma [array_sort_unique]: no other result meets the contract); for a
    comparator that is not consistent ECMAScript leaves the order to the
    engine, and the model takes the order this insertion yields. *)
Fixpoint sort_insert {A : Type} (comparefn : A -> A -> float) (x : A)
  (l : list A) : list A :=
  match l with
  | [] => [x]
  | y :: l' =>
      if (0 <? comparefn x y)%float then y :: sort_insert comparefn x l'
      else x :: y :: l'
  end.

Definition array_sort {A : Type} (comparefn : A -> A -> float) (l : list A)
  : list A :=
  fold_right (sort_insert comparefn) [] l.

(** [(a, b) => b.similarity - a.similarity] *)
Definition by_similarity (a b : ScoredMatch) : float :=
  (similarity b - similarity a)%float.

(** ** Number formatting: [Number.prototype.toFixed(1)] *)

Definition newline : string := String (ascii_of_nat 10) EmptyString.

Definition decimal_of_N (n : N) : string := NilZero.string_of_uint (N.to_uint n).

(** The integer [n] for which [n / 10 - m * 2^e] is closest to zero, the
    larger one of two. *)
Definition nearest_tenths (m : positive) (e : Z) : N :=
  Z.to_N (if (0 <=? e)%Z then 10 * Zpos m * 2 ^ e
          else (20 * Zpos m + 2 ^ (- e)) / 2 ^ (1 - e))%Z.

Section ToFixed.
(** [Number::toString] on values of magnitude at least [1e21], where
    [toFixed] hands over to it: a built-in, taken as given. *)
Variable NumberToString : float -> string.

Definition toFixed1 (x : float) : string :=
  match Prim2SF x with
  | S754_nan => "NaN"
  | S754_infinity s => if s then "-Infinity" else "Infinity"
  | S754_zero _ => "0.0"
  | S754_finite s m e =>
      ((if s then "-" else "") ++
       (if (abs x <? 1e21)%float then
          let n := nearest_tenths m e in
          decimal_of_N (n / 10) ++ "." ++ decimal_of_N (n mod 10)
        else NumberToString (abs x)))%string
  end.

(** One element of [similarBugs.map((item, idx) => `...`)], lines
    108-114 and 371-377 (the two services use the same template). *)
Definition context_entry (idx : nat) (item : ScoredMatch) : string :=
  ("Bug " ++ decimal_of_N (N.of_nat (idx + 1)) ++
   " (Similarity: " ++ toFixed1 (similarity item * 100)%float ++ "%):" ++ newline ++
   "Title: " ++ title (bug item) ++ newline ++
   "Description: " ++ description (bug item) ++ newline ++
   "Solution: " ++ solution (bug item) ++ newline ++
   "Tags: " ++ String.concat ", " (tags (bug item)) ++ newline ++
   "---")%string.

(** [map] with the index, counted from [start]. *)
Fixpoint context_entries (start : nat) (similarBugs : list ScoredMatch)
  : list string :=
  match similarBugs with
  | [] => []
  | item :: rest => context_entry start item :: context_entries (S start) rest
  end.

(** [const context = similarBugs.map(...).join('\n\n')] *)
Definition context (similarBugs : list ScoredMatch) : string :=
  String.concat (newline ++ newline) (context_entries 0 similarBugs).
End ToFixed.

(** ** AIService (aiService.js, lines 12-253) *)
Module AIService.
Section AICosine.
Context {N : Type} `{JsNumber N}.

(** [cosineSimilarity(vecA, vecB)], lines 237-252. *)
Definition cosineSimilarity (vecA vecB : option (list N)) : N :=
  match vecA, vecB with
  | Some a, Some b =>
      if negb (length a =? length b)%nat then num_zero
      else
        let '(dotProduct, normA, normB) := dot_and_norms a b in
        let denominator := num_mul (num_sqrt normA) (num_sqrt normB) in
        if num_is_zero denominator then num_zero
        else num_div dotProduct denominator
  | _, _ => num_zero
  end.
End AICosine.

(** [generateEmbedding(text)], lines 60-72: the provider's values, or the
    empty array when the call throws. *)
Definition generateEmbedding (provider : EmbeddingProvider) (text : string)
  : option (list float) :=
  match provider text with
  | EmbedValues values => values
  | EmbedError _ => Some []
  end.

(** The callback of [bugEmbeddings.map], lines 84-89. *)
Definition score (queryEmbedding : option (list float)) (b : Bug)
  : ScoredMatch :=
  if absent_or_empty (embedding b) then {| bug := b; similarity := 0 |}
  else {| bug := b;
          similarity := cosineSimilarity queryEmbedding (embedding b) |}.

(** [searchSimilarBugs(query, bugEmbeddings)], lines 75-101. *)
Definition searchSimilarBugs (provider : EmbeddingProvider) (query : string)
  (bugEmbeddings : option (list Bug)) : completion (list ScoredMatch) :=
  try_catch
    (let queryEmbedding := generateEmbedding provider query in
     if absent_or_empty queryEmbedding then Return []
     else
       bind (array_map (score queryEmbedding) bugEmbeddings)
         (fun similarities =>
            Return (filter (fun item => (0.3 <? similarity item)%float)
                      (firstn 3 (array_sort by_similarity similarities)))))
    (fun _ => Return []).

(** The prompt of [generateBugSolution], lines 117-128. *)
Definition prompt (NumberToString : float -> string) (query : string)
  (similarBugs : list ScoredMatch) : string :=
  ("Based on these similar bugs I've solved before, help me with this new issue:" ++
   newline ++ newline ++ "QUERY: " ++ query ++
   newline ++ newline ++ "SIMILAR PAST SOLUTIONS:" ++ newline ++
   context NumberToString similarBugs ++
   newline ++ newline ++ "Please provide:" ++ newline ++
   "1. A short and effective suggested solution based on the similar bugs" ++ newline ++
   "2. Key steps to resolve the issue" ++
   newline ++ newline ++ "Format your response clearly with sections.")%string.

(** [generateBugSolution(query, similarBugs)], lines 104-138; [generate]
    is the text model's [generateContent] followed by [response.text()]. *)
Definition generateBugSolution (NumberToString : float -> string)
  (generate : string -> completion string) (query : string)
  (similarBugs : list ScoredMatch) : completion string :=
  try_catch (generate (prompt NumberToString query similarBugs))
    (fun message => Throw ("Solution generation failed: " ++ message)%string).
End AIService.

(** ** GCPService (aiService.js, lines 274-505) *)
Module GCPService.
Section GCPCosine.
Context {N : Type} `{JsNumber N}.

(** [cosineSimilarity(vecA, vecB)], lines 490-504: the same sums, and
    the quotient returned as it is. *)
Definition cosineSimilarity (vecA vecB : option (list N)) : N :=
  match vecA, vecB with
  | Some a, Some b =>
      if negb (length a =? length b)%nat then num_zero
      else
        let '(dotProduct, normA, normB) := dot_and_norms a b in
        num_div dotProduct (num_mul (num_sqrt normA) (num_sqrt normB))
  | _, _ => num_zero
  end.
End GCPCosine.

(** [generateEmbedding(text)], lines 322-340: [... .embedding || []], and
    the empty array when the call throws. *)
Definition generateEmbedding (provider : EmbeddingProvider) (text : string)
  : option (list float) :=
  match provider text with
  | EmbedValues (Some values) => Some values
  | EmbedValues None => Some []
  | EmbedError _ => Some []
  end.

(** The callback of [bugEmbeddings.map], lines 348-353. *)
Definition score (queryEmbedding : option (list float)) (b : Bug)
  : ScoredMatch :=
  if absent_or_empty (embedding b) then {| bug := b; similarity := 0 |}
  else {| bug := b;
          similarity := cosineSimilarity queryEmbedding (embedding b) |}.

(** [searchSimilarBugs(query, bugEmbeddings)], lines 343-364. *)
Definition searchSimilarBugs (provider : EmbeddingProvider) (query : string)
  (bugEmbeddings : option (list Bug)) : completion (list ScoredMatch) :=
  try_catch
    (let queryEmbedding := generateEmbedding provider query in
     bind (array_map (score queryEmbedding) bugEmbeddings)
       (fun similarities =>
          Return (firstn 3 (array_sort by_similarity similarities))))
    (fun _ => Return []).

(** The prompt of [generateBugSolution], lines 380-392. *)
Definition prompt (NumberToString : float -> string) (query : string)
  (similarBugs : list ScoredMatch) : string :=
  ("Based on these similar bugs I've solved before, help me with this new issue:" ++
   newline ++ newline ++ "QUERY: " ++ query ++
   newline ++ newline ++ "SIMILAR PAST SOLUTIONS:" ++ newline ++
   context NumberToString similarBugs ++
   newline ++ newline ++ "Please provide:" ++ newline ++
   "1. A suggested solution based on the similar bugs" ++ newline ++
   "2. Key steps to resolve the issue" ++ newline ++
   "3. Any relevant warnings or best practices" ++
   newline ++ newline ++ "Format your response clearly with sections.")%string.

(** [generateBugSolution(query, similarBugs)], lines 367-402. *)
Definition generateBugSolution (NumberToString : float -> string)
  (generate : string -> completion string) (query : string)
  (similarBugs : list ScoredMatch) : completion string :=
  try_catch (generate (prompt NumberToString query similarBugs))
    (fun message => Throw ("Solution generation failed: " ++ message)%string).
End GCPService.

(** ** The bug routes (routes/bugs.js) *)

(** What a route answers: [res.status(n).json(body)], [res.json] being
    status 200. *)
Inductive reply (D : Type) : Type :=
| Ok200 (data : D)
| Created201 (data : D)
| BadRequest400 (error : string)
| NotFound404 (error : string)
| ServerError500 (error : string).
Arguments Ok200 {D} data.
Arguments Created201 {D} data.
Arguments BadRequest400 {D} error.
Arguments NotFound404 {D} error.
Arguments ServerError500 {D} error.

(** Truthiness of a string field of a request body: absent ([undefined],
    [null]) and the empty string are falsy. *)
Definition truthy (s : option string) : bool :=
  match s with
  | Some (String _ _) => true
  | _ => false
  end.

(** The string a truthy field holds. *)
Definition text_of (s : option string) : string :=
  match s with
  | Some t => t
  | None => EmptyString
  end.


(** The object handed to [new Bug(...)]: the fields the services read, the
    severity and the category. *)
Record BugDocument : Type := {
  doc_bug : Bug;
  doc_severity : string;
  doc_category : string
}.


(** The 200 bodies of [POST /search-solution]: a message with
    [suggestedSolution: null] and [similarBugs: []], or the query, the
    suggested solution and the matches (for each one the response lists the
    fields of [item.bug] and [item.similarity]). *)
Inductive search_body : Type :=
| Unanswered (message : string)
| Suggested (query : string) (suggestedSolution : string)
            (similarBugs : list ScoredMatch).

(** The keys [PUT /:id] reads off [req.body]; [Rest] stands for its other
    keys, copied into the update as they are. *)
Record UpdateBody (Rest : Type) : Type := {
  new_title : option string;
  new_description : option string;
  new_solution : option string;
  other_keys : Rest
}.
Arguments new_title {Rest} u.
Arguments new_description {Rest} u.
Arguments new_solution {Rest} u.
Arguments other_keys {Rest} u.

(** [field || bug.field], with [bug] the result of [findById], [null] when
    no document has the id: the stored field is read only when the new one
    is falsy. *)
Definition new_or_stored (field : option string) (stored : option Bug)
  (read : Bug -> string) (name : string) : completion string :=
  if truthy field then Return (text_of field)
  else match stored with
       | Some b => Return (read b)
       | None =>
           Throw ("Cannot read properties of null (reading '" ++ name ++ "')")
       end.

Section BugRoutes.
Variable provider : EmbeddingProvider.
Variable NumberToString : float -> string.
(** The text model behind [generateBugSolution]. *)
Variable generate : string -> completion string.
(** The document store: what [save], [find], [findById] and
    [findByIdAndUpdate] answer. *)
Variable Doc : Type.
Variable save : BugDocument -> completion Doc.


(** [router.post('/search-solution')], lines 88-144; [found] is what
    [Bug.find({ embedding: { $exists: true, $ne: [] } })] answers. *)
Definition search_solution (found : completion (list Bug))
  (query : option string) : reply search_body :=
  if negb (truthy query) then BadRequest400 "Query is required"
  else
    match found with
    | Throw message => ServerError500 message
    | Return [] =>
        Ok200 (Unanswered "No bugs in database yet. Add some bug solutions first!")
    | Return allBugs =>
        match AIService.searchSimilarBugs provider (text_of query) (Some allBugs) with
        | Throw message => ServerError500 message
        | Return [] => Ok200 (Unanswered "No similar bugs found")
        | Return similarBugs =>
            match AIService.generateBugSolution NumberToString generate
                    (text_of query) similarBugs with
            | Throw message => ServerError500 message
            | Return aiSolution =>
                Ok200 (Suggested (text_of query) aiSolution similarBugs)
            end
        end
    end.

Variable Rest : Type.
Variable findById : completion (option Bug).
(** The update is the request body, with [embedding] set when it was
    regenerated. *)
Variable findByIdAndUpdate :
  UpdateBody Rest -> option (option (list float)) -> completion (option Doc).

(** The regeneration step of [router.put('/:id')], lines 154-164. *)
Definition regenerate_embedding (body : UpdateBody Rest)
  : completion (option (option (list float))) :=
  if truthy (new_title body) || truthy (new_description body)
     || truthy (new_solution body)
  then
    bind findById (fun stored =>
    bind (new_or_stored (new_title body) stored title "title") (fun newTitle =>
    bind (new_or_stored (new_description body) stored description "description")
      (fun newDesc =>
    bind (new_or_stored (new_solution body) stored solution "solution")
      (fun newSol =>
    Return (Some (AIService.generateEmbedding provider
                    (newTitle ++ " " ++ newDesc ++ " " ++ newSol)%string))))))
  else Return None.

(** [router.put('/:id')], lines 147-184. *)
Definition update_bug (body : UpdateBody Rest) : reply Doc :=
  match bind (regenerate_embedding body) (findByIdAndUpdate body) with
  | Throw message => ServerError500 message
  | Return None => NotFound404 "Bug not found"
  | Return (Some doc) => Ok200 doc
  end.
End BugRoutes.

(** ** Counting with a [Map] (routes/bugs.js, routes/workEntries.js) *)

(** A [Map] from strings to counts, its entries in insertion order. *)
Definition map_get (m : list (string * nat)) (k : string) : option nat :=
  match find (fun e => String.eqb (fst e) k) m with
  | Some e => Some (snd e)
  | None => None
  end.

(** [m.set(k, v)]: an existing key keeps its place. *)
Fixpoint map_set (m : list (string * nat)) (k : string) (v : nat)
  : list (string * nat) :=
  match m with
  | [] => [(k, v)]
  | (k', v') :: m' =>
      if String.eqb k' k then (k, v) :: m' else (k', v') :: map_set m' k v
  end.

(** [m.set(x, (m.get(x) || 0) + 1)] *)
Definition count_one (m : list (string * nat)) (x : string)
  : list (string * nat) :=
  map_set m x (match map_get m x with Some n => n | None => 0 end + 1).

(** [docs.forEach(doc => doc.labels.forEach(x => m.set(...)))] on an empty
    map. *)
Definition tally (labels : list (list string)) : list (string * nat) :=
  fold_left (fun m l => fold_left count_one l m) labels [].

(** [Array.prototype.sort] with a comparator whose answers are integers
    (differences of counts): the same insertion as [sort_insert], with no
    rounding and no NaN to meet. *)
Fixpoint sort_insert_Z {A : Type} (comparefn : A -> A -> Z) (x : A)
  (l : list A) : list A :=
  match l with
  | [] => [x]
  | y :: l' =>
      if (0 <? comparefn x y)%Z then y :: sort_insert_Z comparefn x l'
      else x :: y :: l'
  end.

Definition array_sort_Z {A : Type} (comparefn : A -> A -> Z) (l : list A)
  : list A :=
  fold_right (sort_insert_Z comparefn) [] l.

(** [(a, b) => b.count - a.count] *)
Definition by_count (a b : string * nat) : Z :=
  (Z.of_nat (snd b) - Z.of_nat (snd a))%Z.

(** [commonTags] of [GET /analytics/stats], bugs.js lines 218-229. *)
Definition commonTags (bugs : list BugDocument) : list (string * nat) :=
  firstn 10
    (array_sort_Z by_count (tally (map (fun b => tags (doc_bug b)) bugs))).

(** One count of [bySeverity], lines 208-213:
    [bugs.filter(b => b.severity === s).length]. *)
Definition count_severity (s : string) (bugs : list BugDocument) : nat :=
  length (filter (fun b => String.eqb (doc_severity b) s) bugs).

(** ** Work entries and the report (models/WorkEntry.js, aiService.js) *)

Record Productivity : Type := {
  hoursSpent : option float;
  tasksCompleted : option float;
  complexity : option string
}.

(** The fields of a work entry that [generateReport] and the analytics
    routes aggregate; a numeric field that is missing is [None]. *)
Record WorkEntry : Type := {
  technologies : list string;
  problemsSolved : option float;
  productivity : option Productivity
}.

(** The falsy numbers: [undefined], [0], [-0] and NaN. *)
Definition falsy_number (x : option float) : bool :=
  match x with
  | Some v => is_zero v || is_nan v
  | None => true
  end.

(** [e.productivity?.tasksCompleted] *)
Definition tasks_of (e : WorkEntry) : option float :=
  match productivity e with
  | Some p => tasksCompleted p
  | None => None
  end.

(** [e.productivity?.hoursSpent] *)
Definition hours_of (e : WorkEntry) : option float :=
  match productivity e with
  | Some p => hoursSpent p
  | None => None
  end.

(** [x || 0] on a number. *)
Definition number_or_zero (x : option float) : float :=
  match x with
  | Some v => if is_zero v || is_nan v then 0%float else v
  | None => 0%float
  end.

(** [workEntries.reduce((sum, e) => sum + (e.problemsSolved || 0), 0)] *)
Definition totalProblems (workEntries : list WorkEntry) : float :=
  fold_left (fun sum e => (sum + number_or_zero (problemsSolved e))%float)
            workEntries 0%float.

(** [workEntries.reduce((sum, e) => sum + (e.productivity?.tasksCompleted || 0), 0)] *)
Definition totalTasks (workEntries : list WorkEntry) : float :=
  fold_left
    (fun sum e =>
       (sum + number_or_zero (tasks_of e))%float)
    workEntries 0%float.

(** [entries.reduce((sum, e) => sum + (e.productivity?.hoursSpent || 0), 0)],
    routes/reports.js. *)
Definition totalHoursSpent (entries : list WorkEntry) : float :=
  fold_left (fun sum e => (sum + number_or_zero (hours_of e))%float)
            entries 0%float.

(** The object [{ Easy: 0, Medium: 0, Hard: 0 }] of [complexityDistribution],
    routes/reports.js. *)
Record Distribution : Type := {
  Easy : nat;
  Medium : nat;
  Hard : nat
}.

(** The body of the loop: [dist[complexity]++] when [complexity] is truthy
    and one of the three own keys of [dist]. *)
Definition count_complexity (dist : Distribution) (entry : WorkEntry)
  : Distribution :=
  let complexity :=
    match productivity entry with
    | Some p => complexity p
    | None => None
    end in
  if truthy complexity then
    if String.eqb (text_of complexity) "Easy" then
      {| Easy := Easy dist + 1; Medium := Medium dist; Hard := Hard dist |}
    else if String.eqb (text_of complexity) "Medium" then
      {| Easy := Easy dist; Medium := Medium dist + 1; Hard := Hard dist |}
    else if String.eqb (text_of complexity) "Hard" then
      {| Easy := Easy dist; Medium := Medium dist; Hard := Hard dist + 1 |}
    else dist
  else dist.

Definition complexityDistribution (entries : list WorkEntry) : Distribution :=
  fold_left count_complexity entries {| Easy := 0; Medium := 0; Hard := 0 |}.

(** [set.add(x)] on a [Set] of strings, its elements in insertion order. *)
Definition set_add (s : list string) (x : string) : list string :=
  if existsb (String.eqb x) s then s else s ++ [x].

(** [[...new Set(array)]] *)
Definition unique (array : list string) : list string :=
  fold_left set_add array [].

(** [allTechs], lines 147 and 411. *)
Definition allTechs (workEntries : list WorkEntry) : list string :=
  unique (flat_map technologies workEntries).

(** The list of [GET /analytics/technologies], routes/workEntries.js:
    every technology with the number of entries' mentions, by count. *)
Definition technologies_summary (entries : list WorkEntry)
  : list (string * nat) :=
  array_sort_Z by_count (tally (map technologies entries)).

(** ** An integer reading of the order on binary64 values

    A finite binary64 value is a multiple of [2^-1074]; [SFkey] is that
    multiple, with [2^2098] (above every finite value) for infinity.  It is
    used to state and prove order properties; NaN has no place in the order
    and is given [0]. *)
Definition SFkey (x : spec_float) : Z :=
  match x with
  | S754_zero _ => 0
  | S754_infinity s => cond_Zopp s (2 ^ 2098)
  | S754_nan => 0
  | S754_finite s m e => cond_Zopp s (Zpos m * 2 ^ (e + 1074))
  end.

Definition float_key (x : float) : Z := SFkey (Prim2SF x).

Definition sim_key (m : ScoredMatch) : Z := float_key (similarity m).

(** ** Vocabulary of the statements *)

(** A list in non-increasing order of an integer key. *)
Definition descending {A : Type} (key : A -> Z) : list A -> Prop :=
  StronglySorted (fun x y => (key y <= key x)%Z).

(** The similarity of a match is not NaN. *)
Definition not_nan (m : ScoredMatch) : Prop := is_nan (similarity m) = false.

(** Matches in non-increasing similarity order: every later match has a
    similarity [<=] that of every earlier one (IEEE comparison). *)
Definition non_increasing : list ScoredMatch -> Prop :=
  StronglySorted (fun x y => (similarity y <=? similarity x)%float = true).

(** The matches of a list whose similarity equals [v], in list order. *)
Definition ties (v : float) (l : list ScoredMatch) : list ScoredMatch :=
  filter (fun m => (similarity m =? v)%float) l.

(** The [productivity.complexity] of a work entry is the word [c]. *)
Definition has_complexity (c : string) (e : WorkEntry) : bool :=
  match productivity e with
  | Some p => match complexity p with
              | Some c' => String.eqb c' c
              | None => false
              end
  | None => false
  end.

(** [l1] is an initial segment of [l2]. *)
Definition initial {A : Type} (l1 l2 : list A) : Prop :=
  exists rest, l2 = l1 ++ rest.

(** [part] occurs in [whole]. *)
Definition contains (part whole : string) : Prop :=
  exists before after, whole = (before ++ part ++ after)%string.

(** The separator of [join]: an empty line. *)
Definition blank_line : string := (newline ++ newline)%string.

(** ** Sample inputs *)

Definition sample_bug (name : string) (e : option (list float)) : Bug :=
  {| title := name; description := "steps"; solution := "fix";
     tags := ["api"; "db"]%string; embedding := e |}.

(** A provider that answers every text with the same vector, and one whose
    call fails. *)
Definition always (values : list float) : EmbeddingProvider :=
  fun _ => EmbedValues (Some values).

Definition failing : EmbeddingProvider := fun _ => EmbedError "503".

(** Five candidates whose cosine similarities to [1,0,0,0,0] are exactly
    the doubles 0.9, 0.8, 0.35, 0.2 and 0.1: each vector has an integer
    norm (10, 10, 20, 5, 10), so no step of the computation rounds before
    the final quotient. *)
Definition five_query : list float := [1; 0; 0; 0; 0]%float.

Definition five_candidates : list Bug :=
  [ sample_bug "A" (Some [9; 3; 3; 1; 0]%float);
    sample_bug "B" (Some [8; 6; 0; 0; 0]%float);
    sample_bug "C" (Some [7; 17; 7; 3; 2]%float);
    sample_bug "D" (Some [1; 4; 2; 2; 0]%float);
    sample_bug "E" (Some [1; 9; 3; 3; 0]%float) ].

(** Three candidates around an all-zero embedding, and three around one
    whose products with a large query overflow. *)
Definition zero_candidates : list Bug :=
  [ sample_bug "A" (Some [1; 0]%float);
    sample_bug "Z" (Some [0; 0]%float);
    sample_bug "B" (Some [1; 1]%float) ].

Definition overflow_candidates : list Bug :=
  [ sample_bug "A" (Some [1; 0]%float);
    sample_bug "Z" (Some [1e300; -1e300]%float);
    sample_bug "B" (Some [1; 1]%float) ].

(** * Properties *)

(** ** The loop reads the two arrays side by side *)

Section LoopFacts.
Context {N : Type} `{JsNumber N}.

Lemma fold_loop_body_zip (pa pb a b : list N) (acc : N * N * N) :
  length pa = length pb -> length a = length b ->
  fold_left (loop_body (pa ++ a) (pb ++ b)) (seq (length pa) (length a)) acc
  = zip_sums a b acc.
Proof.
  revert pa pb b acc.
  induction a as [|x a IH]; intros pa pb [|y b] acc Hp Hl;
    simpl in Hl; try discriminate; [reflexivity|].
  injection Hl as Hl. cbn [length seq fold_left zip_sums].
  destruct acc as [[d na] nb].
  assert (Hx : nth (length pa) (pa ++ x :: a) num_undefined = x)
    by (rewrite app_nth2, Nat.sub_diag by lia; reflexivity).
  assert (Hy : nth (length pa) (pb ++ y :: b) num_undefined = y)
    by (rewrite Hp, app_nth2, Nat.sub_diag by lia; reflexivity).
  unfold loop_body at 2. rewrite Hx, Hy.
  specialize (IH (pa ++ [x]) (pb ++ [y]) b
                (num_add d (num_mul x y), num_add na (num_mul x x),
                 num_add nb (num_mul y y))).
  rewrite <- !app_assoc in IH. cbn [app] in IH.
  rewrite length_app in IH. cbn [length] in IH.
  rewrite Nat.add_1_r in IH. apply IH; [rewrite !length_app; cbn; lia|exact Hl].
Qed.

Lemma dot_and_norms_zip (a b : list N) :
  length a = length b ->
  dot_and_norms a b = zip_sums a b (num_zero, num_zero, num_zero).
Proof.
  intro Hl. unfold dot_and_norms.
  exact (fold_loop_body_zip [] [] a b _ eq_refl Hl).
Qed.
End LoopFacts.

(** ** Facts of binary64 arithmetic *)

Lemma float_mul_comm (x y : float) : (x * y)%float = (y * x)%float.
Proof.
  apply Prim2SF_inj. rewrite !mul_spec. unfold SF64mul.
  destruct (Prim2SF x) as [sx|sx| |sx mx ex], (Prim2SF y) as [sy|sy| |sy my ey];
    cbn [SFmul]; rewrite ?(xorb_comm sy sx); try reflexivity.
  now rewrite (Pos.mul_comm my mx), (Z.add_comm ey ex).
Qed.

Lemma zip_sums_swap (a b : list float) (d na nb : float) :
  zip_sums b a (d, nb, na)
  = let '(d', na', nb') := zip_sums a b (d, na, nb) in (d', nb', na').
Proof.
  revert b d na nb.
  induction a as [|x a IH]; intros [|y b] d na nb; cbn [zip_sums]; try reflexivity.
  cbn [num_add num_mul float_JsNumber].
  rewrite (float_mul_comm y x). apply IH.
Qed.

(** *** Size of a mantissa *)

Lemma digits2_pos_bounds (m : positive) :
  (2 ^ (Zpos (digits2_pos m) - 1) <= Zpos m < 2 ^ Zpos (digits2_pos m))%Z.
Proof.
  induction m as [m IH|m IH|]; cbn [digits2_pos].
  - rewrite Pos2Z.inj_succ, Z.pow_succ_r by lia.
    replace (Z.succ (Zpos (digits2_pos m)) - 1)%Z
      with (Z.succ (Zpos (digits2_pos m) - 1)) by lia.
    rewrite Z.pow_succ_r by lia. lia.
  - rewrite Pos2Z.inj_succ, Z.pow_succ_r by lia.
    replace (Z.succ (Zpos (digits2_pos m)) - 1)%Z
      with (Z.succ (Zpos (digits2_pos m) - 1)) by lia.
    rewrite Z.pow_succ_r by lia. lia.
  - cbn. lia.
Qed.

(** A canonical binary64 mantissa and exponent: the exponent is at least
    [-1074] and at most [971], the mantissa is below [2^53], and at least
    [2^52] unless the exponent is the smallest one. *)
Lemma bounded_inv (m : positive) (e : Z) :
  bounded prec emax m e = true ->
  (-1074 <= e <= 971 /\ Zpos m < 2 ^ 53 /\ (-1074 < e -> 2 ^ 52 <= Zpos m))%Z.
Proof.
  unfold bounded, canonical_mantissa, fexp, SpecFloat.emin, prec, emax.
  intro Hb. apply andb_true_iff in Hb as [Hc He].
  apply Z.eqb_eq in Hc. apply Z.leb_le in He.
  pose proof (digits2_pos_bounds m) as [Hlo Hhi].
  set (d := Zpos (digits2_pos m)) in *.
  assert (Hd : (0 < d)%Z) by (unfold d; lia).
  split; [lia|]. split.
  - apply Z.lt_le_trans with (1 := Hhi).
    apply Z.pow_le_mono_r; lia.
  - intro Hgt. assert (d = 53%Z) as Hd53 by lia.
    rewrite Hd53 in Hlo. exact Hlo.
Qed.

(** *** Shifting right never empties a mantissa above the smallest exponent *)

Lemma shr_1_m (mrs : shr_record) :
  (0 <= shr_m mrs)%Z -> shr_m (shr_1 mrs) = (shr_m mrs / 2)%Z.
Proof.
  destruct mrs as [[|[p|p|]|p] r s]; cbn [shr_1 shr_m]; intro Hm;
    try (rewrite <- Z.div2_div; reflexivity).
  lia.
Qed.

Lemma iter_shr_1_m (p : positive) : forall mrs : shr_record,
  (0 <= shr_m mrs)%Z ->
  shr_m (SpecFloat.iter_pos shr_1 p mrs) = (shr_m mrs / 2 ^ Zpos p)%Z.
Proof.
  induction p as [p IH|p IH|]; intros mrs Hm; cbn [SpecFloat.iter_pos].
  - assert (H1 : (0 <= shr_m (shr_1 mrs))%Z)
      by (rewrite shr_1_m by exact Hm; apply Z.div_pos; lia).
    assert (H2 : (0 <= shr_m (SpecFloat.iter_pos shr_1 p (shr_1 mrs)))%Z)
      by (rewrite IH by exact H1; apply Z.div_pos; lia).
    rewrite IH, IH, shr_1_m by assumption.
    rewrite !Z.div_div by lia. f_equal.
    replace (Zpos p~1) with (Zpos p + Zpos p + 1)%Z by lia.
    rewrite !Z.pow_add_r by lia. change (2 ^ 1)%Z with 2%Z. lia.
  - assert (H2 : (0 <= shr_m (SpecFloat.iter_pos shr_1 p mrs))%Z)
      by (rewrite IH by exact Hm; apply Z.div_pos; lia).
    rewrite IH, IH by assumption.
    rewrite !Z.div_div by lia. f_equal.
    replace (Zpos p~0) with (Zpos p + Zpos p)%Z by lia.
    rewrite Z.pow_add_r by lia. reflexivity.
  - rewrite shr_1_m by exact Hm. reflexivity.
Qed.

Lemma shr_record_of_loc_m (m : Z) (l : location) :
  shr_m (shr_record_of_loc m l) = m.
Proof. destruct l as [|[ | | ]]; reflexivity. Qed.

Lemma shr_fexp_pos (m : positive) (e : Z) (l : location) :
  (-1074 <= e)%Z ->
  (0 < shr_m (fst (shr_fexp prec emax (Zpos m) e l))
   /\ -1074 <= snd (shr_fexp prec emax (Zpos m) e l))%Z.
Proof.
  intro He. unfold shr_fexp, shr, fexp, SpecFloat.emin, prec, emax.
  cbn [Zdigits2].
  pose proof (digits2_pos_bounds m) as [Hlo _].
  set (d := Zpos (digits2_pos m)) in *.
  destruct (Z.max (d + e - 53) (3 - 1024 - 53) - e)%Z as [|p|p] eqn:Hn;
    cbn [fst snd]; rewrite ?shr_record_of_loc_m; try lia.
  rewrite iter_shr_1_m by (rewrite shr_record_of_loc_m; lia).
  rewrite shr_record_of_loc_m. split; [|lia].
  assert (Hp : Zpos p = (d - 53)%Z) by lia.
  apply Z.lt_le_trans with 1%Z; [lia|].
  apply Z.div_le_lower_bound; [apply Z.pow_pos_nonneg; lia|].
  rewrite Z.mul_1_r. apply Z.le_trans with (2 := Hlo).
  apply Z.pow_le_mono_r; lia.
Qed.

Lemma round_nearest_even_ge (m : Z) (l : location) :
  (m <= round_nearest_even m l)%Z.
Proof.
  destruct l as [|[ | | ]]; cbn [round_nearest_even]; try lia.
  destruct (Z.even m); lia.
Qed.

(** Rounding a positive multiple of [2^e], [e >= -1074], gives a positive
    value: a finite one or [+Infinity], never zero. *)
Lemma binary_round_aux_pos (m : positive) (e : Z) (l : location) :
  (-1074 <= e)%Z ->
  SFltb (S754_zero false) (binary_round_aux prec emax false (Zpos m) e l) = true.
Proof.
  intro He. unfold binary_round_aux.
  pose proof (shr_fexp_pos m e l He) as [H1 H2].
  destruct (shr_fexp prec emax (Zpos m) e l) as [mrs' e'].
  cbn [fst snd] in H1, H2.
  pose proof (round_nearest_even_ge (shr_m mrs') (loc_of_shr_record mrs')) as Hr.
  destruct (round_nearest_even (shr_m mrs') (loc_of_shr_record mrs'))
    as [|m2|m2]; try lia.
  pose proof (shr_fexp_pos m2 e' loc_Exact H2) as [H3 _].
  destruct (shr_fexp prec emax (Zpos m2) e' loc_Exact) as [mrs'' e''].
  cbn [fst] in H3.
  destruct (shr_m mrs'') as [|m3|m3]; try lia.
  destruct (e'' <=? emax - prec)%Z; reflexivity.
Qed.

(** Rounding with the sign bit set never gives a value above zero. *)
Lemma binary_round_aux_neg (m e : Z) (l : location) :
  SFltb (S754_zero false) (binary_round_aux prec emax true m e l) = false.
Proof.
  unfold binary_round_aux.
  destruct (shr_fexp prec emax m e l) as [mrs' e'].
  destruct (shr_fexp prec emax _ e' loc_Exact) as [mrs'' e''].
  destruct (shr_m mrs'') as [|m3|m3]; try reflexivity.
  destruct (e'' <=? emax - prec)%Z; reflexivity.
Qed.

Lemma iter_xO_pow (d m : positive) :
  Zpos (Pos.iter xO m d) = (Zpos m * 2 ^ Zpos d)%Z.
Proof.
  induction d as [|d IH] using Pos.peano_ind.
  - cbn. lia.
  - rewrite Pos.iter_succ, Pos2Z.inj_xO, IH, Pos2Z.inj_succ, Z.pow_succ_r by lia.
    lia.
Qed.

Lemma shl_align_fst (m : positive) (e ez : Z) :
  (ez <= e)%Z ->
  Zpos (fst (shl_align m e ez)) = (Zpos m * 2 ^ (e - ez))%Z.
Proof.
  intro Hle. unfold shl_align.
  destruct (ez - e)%Z as [|d|d] eqn:Hd; cbn [fst]; try lia.
  - replace (e - ez)%Z with 0%Z by lia. lia.
  - rewrite iter_xO_pow. f_equal. f_equal. lia.
Qed.

Lemma binary_round_pos (m : positive) (e : Z) :
  (-1074 <= e)%Z ->
  SFltb (S754_zero false) (binary_round prec emax false m e) = true.
Proof.
  intro He. unfold binary_round, shl_align.
  set (e' := fexp prec emax (Zpos (digits2_pos m) + e)).
  assert (He' : (-1074 <= e')%Z)
    by (unfold e', fexp, SpecFloat.emin, prec, emax; lia).
  destruct (e' - e)%Z; apply binary_round_aux_pos; assumption.
Qed.

Lemma binary_round_neg (m : positive) (e : Z) :
  SFltb (S754_zero false) (binary_round prec emax true m e) = false.
Proof.
  unfold binary_round.
  destruct (shl_align m e _) as [mz ez]. apply binary_round_aux_neg.
Qed.

(** The sign of a normalised integer multiple of [2^e]. *)
Lemma binary_normalize_pos (M e : Z) :
  (-1074 <= e)%Z ->
  SFltb (S754_zero false) (binary_normalize prec emax M e false) = (0 <? M)%Z.
Proof.
  intro He. destruct M as [|m|m]; cbn [binary_normalize].
  - reflexivity.
  - now apply binary_round_pos.
  - apply binary_round_neg.
Qed.

(** *** The order of binary64 values is the order of their keys *)

Lemma pow2_pos (e : Z) : (0 < 2 ^ (e + 1074))%Z \/ (e + 1074 < 0)%Z.
Proof.
  destruct (Z.le_gt_cases 0 (e + 1074)) as [Hle|Hlt]; [left|right; lia].
  apply Z.pow_pos_nonneg; lia.
Qed.

Lemma magnitude_bounds (m : positive) (e : Z) :
  bounded prec emax m e = true ->
  (0 < Zpos m * 2 ^ (e + 1074) < 2 ^ 2098)%Z.
Proof.
  intro Hb. apply bounded_inv in Hb as (He & Hm & _).
  assert (HP : (0 < 2 ^ (e + 1074))%Z) by (apply Z.pow_pos_nonneg; lia).
  assert (HQ : (2 ^ (e + 1074) <= 2 ^ 2045)%Z) by (apply Z.pow_le_mono_r; lia).
  split; [lia|].
  replace (2 ^ 2098)%Z with (2 ^ 53 * 2 ^ 2045)%Z
    by (rewrite <- Z.pow_add_r by lia; reflexivity).
  set (P := (2 ^ (e + 1074))%Z) in *. set (Q := (2 ^ 2045)%Z) in *.
  apply Z.lt_le_trans with (2 ^ 53 * P)%Z.
  - apply Z.mul_lt_mono_pos_r; assumption.
  - apply Z.mul_le_mono_nonneg_l; [lia|assumption].
Qed.

Lemma magnitude_lt (m1 m2 : positive) (e1 e2 : Z) :
  bounded prec emax m1 e1 = true -> bounded prec emax m2 e2 = true ->
  (e1 < e2)%Z ->
  (Zpos m1 * 2 ^ (e1 + 1074) < Zpos m2 * 2 ^ (e2 + 1074))%Z.
Proof.
  intros H1 H2 Hlt.
  apply bounded_inv in H1 as (He1 & Hm1 & _).
  apply bounded_inv in H2 as (He2 & _ & Hm2).
  specialize (Hm2 ltac:(lia)).
  replace (e2 + 1074)%Z with ((e2 - e1) + (e1 + 1074))%Z by lia.
  rewrite (Z.pow_add_r 2 (e2 - e1) (e1 + 1074)) by lia.
  assert (HP : (0 < 2 ^ (e1 + 1074))%Z) by (apply Z.pow_pos_nonneg; lia).
  assert (HQ : (2 ^ 1 <= 2 ^ (e2 - e1))%Z) by (apply Z.pow_le_mono_r; lia).
  change (2 ^ 1)%Z with 2%Z in HQ.
  set (P := (2 ^ (e1 + 1074))%Z) in *. set (Q := (2 ^ (e2 - e1))%Z) in *.
  rewrite Z.mul_assoc. apply Z.mul_lt_mono_pos_r; [assumption|].
  apply Z.lt_le_trans with (2 ^ 53)%Z; [assumption|].
  apply Z.le_trans with (2 ^ 52 * 2)%Z; [reflexivity|].
  apply Z.mul_le_mono_nonneg; lia.
Qed.

Lemma magnitude_compare (m1 m2 : positive) (e1 e2 : Z) :
  bounded prec emax m1 e1 = true -> bounded prec emax m2 e2 = true ->
  match (e1 ?= e2)%Z with
  | Lt => Lt
  | Gt => Gt
  | Eq => Pos.compare_cont Eq m1 m2
  end = (Zpos m1 * 2 ^ (e1 + 1074) ?= Zpos m2 * 2 ^ (e2 + 1074))%Z.
Proof.
  intros H1 H2. symmetry.
  destruct (Z.compare_spec e1 e2) as [Heq|Hlt|Hgt].
  - subst e2. apply bounded_inv in H1 as (He1 & _).
    assert (HP : (0 < 2 ^ (e1 + 1074))%Z) by (apply Z.pow_pos_nonneg; lia).
    change (Pos.compare_cont Eq m1 m2) with (Pos.compare m1 m2).
    destruct (Pos.compare_spec m1 m2) as [Hm|Hm|Hm].
    + subst m2. apply Z.compare_refl.
    + apply Z.compare_lt_iff, Z.mul_lt_mono_pos_r; [assumption|lia].
    + apply Z.compare_gt_iff, Z.mul_lt_mono_pos_r; [assumption|lia].
  - apply Z.compare_lt_iff. now apply magnitude_lt.
  - apply Z.compare_gt_iff. now apply magnitude_lt.
Qed.

Lemma SFcompare_key (x y : spec_float) :
  valid_binary x = true -> valid_binary y = true ->
  x <> S754_nan -> y <> S754_nan ->
  SFcompare x y = Some (SFkey x ?= SFkey y)%Z.
Proof.
  intros Vx Vy Nx Ny.
  destruct x as [sx|sx| |sx mx ex]; try congruence;
    destruct y as [sy|sy| |sy my ey]; try congruence;
    cbn [valid_binary] in Vx, Vy; cbn [SFcompare SFkey];
    try (pose proof (magnitude_bounds _ _ Vx) as Bx);
    try (pose proof (magnitude_bounds _ _ Vy) as By);
    assert (Hh : (0 < 2 ^ 2098)%Z) by (apply Z.pow_pos_nonneg; lia);
    set (huge := (2 ^ 2098)%Z) in *;
    f_equal; symmetry.
  all: try (destruct sx); try (destruct sy); cbn [cond_Zopp].
  all: try (apply Z.compare_eq_iff; lia).
  all: try (apply Z.compare_lt_iff; lia).
  all: try (apply Z.compare_gt_iff; lia).
  - rewrite Z.compare_opp, Z.compare_antisym.
    rewrite <- (magnitude_compare _ _ _ _ Vx Vy).
    destruct (ex ?= ey)%Z; reflexivity.
  - now rewrite <- (magnitude_compare _ _ _ _ Vx Vy).
Qed.

(** The comparator's subtraction: [y - x] is above zero exactly when [y] is
    above [x].  (Gradual underflow: the difference of two distinct finite
    values never rounds to zero.  [Infinity - Infinity] is NaN.) *)
Lemma SFsub_pos_key (x y : spec_float) :
  valid_binary x = true -> valid_binary y = true ->
  x <> S754_nan -> y <> S754_nan ->
  SFltb (S754_zero false) (SFsub prec emax y x) = (SFkey x <? SFkey y)%Z.
Proof.
  intros Vx Vy Nx Ny.
  destruct x as [sx|sx| |sx mx ex]; try congruence;
    destruct y as [sy|sy| |sy my ey]; try congruence;
    cbn [valid_binary] in Vx, Vy; cbn [SFsub SFkey];
    try (pose proof (magnitude_bounds _ _ Vx) as Bx);
    try (pose proof (magnitude_bounds _ _ Vy) as By);
    assert (Hh : (0 < 2 ^ 2098)%Z) by (apply Z.pow_pos_nonneg; lia);
    set (huge := (2 ^ 2098)%Z) in *.
  all: try (destruct sx); try (destruct sy); cbn [cond_Zopp negb SFltb SFcompare].
  all: try (symmetry; apply Z.ltb_lt; lia).
  all: try (symmetry; apply Z.ltb_ge; lia).
  all: apply bounded_inv in Vx as (Hex & _); apply bounded_inv in Vy as (Hey & _).
  all: rewrite binary_normalize_pos by lia.
  all: rewrite !shl_align_fst by lia.
  all: set (ez := Z.min ey ex) in *.
  all: assert (HR : (0 < 2 ^ (ez + 1074))%Z) by (apply Z.pow_pos_nonneg; lia).
  all: replace (ey + 1074)%Z with ((ey - ez) + (ez + 1074))%Z by lia.
  all: replace (ex + 1074)%Z with ((ex - ez) + (ez + 1074))%Z by lia.
  all: rewrite (Z.pow_add_r 2 (ey - ez)), (Z.pow_add_r 2 (ex - ez)) by lia.
  all: set (R := (2 ^ (ez + 1074))%Z) in *.
  all: set (A := (Zpos my * 2 ^ (ey - ez))%Z).
  all: set (B := (Zpos mx * 2 ^ (ex - ez))%Z).
  all: rewrite !Z.mul_assoc; fold A B.
  all: apply Bool.eq_iff_eq_true; rewrite !Z.ltb_lt; nia.
Qed.

(** *** The same facts on the primitive type *)

Lemma float_not_nan (x : float) :
  is_nan x = false -> Prim2SF x <> S754_nan.
Proof.
  unfold is_nan. rewrite FloatAxioms.eqb_spec. intros Hn E. rewrite E in Hn. discriminate.
Qed.

Lemma float_ltb_key (x y : float) :
  is_nan x = false -> is_nan y = false ->
  (x <? y)%float = (float_key x <? float_key y)%Z.
Proof.
  intros Hx Hy. rewrite FloatAxioms.ltb_spec. unfold SFltb, float_key, Z.ltb.
  rewrite SFcompare_key
    by (apply Prim2SF_valid || apply float_not_nan; assumption).
  reflexivity.
Qed.

Lemma float_leb_key (x y : float) :
  is_nan x = false -> is_nan y = false ->
  (x <=? y)%float = (float_key x <=? float_key y)%Z.
Proof.
  intros Hx Hy. rewrite FloatAxioms.leb_spec. unfold SFleb, float_key, Z.leb.
  rewrite SFcompare_key
    by (apply Prim2SF_valid || apply float_not_nan; assumption).
  destruct (_ ?= _)%Z; reflexivity.
Qed.

Lemma float_eqb_key (x y : float) :
  is_nan x = false -> is_nan y = false ->
  (x =? y)%float = (float_key x =? float_key y)%Z.
Proof.
  intros Hx Hy. rewrite FloatAxioms.eqb_spec. unfold SFeqb, float_key.
  rewrite SFcompare_key
    by (apply Prim2SF_valid || apply float_not_nan; assumption).
  destruct (Z.compare_spec (SFkey (Prim2SF x)) (SFkey (Prim2SF y))) as [E|E|E];
    symmetry; [apply Z.eqb_eq|apply Z.eqb_neq|apply Z.eqb_neq]; lia.
Qed.

Lemma float_sub_pos_key (x y : float) :
  is_nan x = false -> is_nan y = false ->
  (0 <? y - x)%float = (float_key x <? float_key y)%Z.
Proof.
  intros Hx Hy. rewrite FloatAxioms.ltb_spec, FloatAxioms.sub_spec.
  change (Prim2SF 0) with (S754_zero false).
  apply SFsub_pos_key;
    (apply Prim2SF_valid || apply float_not_nan; assumption).
Qed.

(** *** Equality and the threshold test *)

Lemma float_is_nan_false (x : float) :
  Prim2SF x <> S754_nan -> is_nan x = false.
Proof.
  intro Hx. unfold is_nan. rewrite FloatAxioms.eqb_spec. unfold SFeqb.
  rewrite SFcompare_key by (apply Prim2SF_valid || assumption).
  now rewrite Z.compare_refl.
Qed.

Lemma SFeqb_true_not_nan (x y : spec_float) :
  SFeqb x y = true -> x <> S754_nan /\ y <> S754_nan.
Proof.
  destruct x, y; cbn; intro E; try discriminate; split; discriminate.
Qed.

Lemma float_eqb_true (x v : float) :
  (x =? v)%float = true ->
  is_nan x = false /\ is_nan v = false /\ float_key x = float_key v.
Proof.
  intro E. pose proof E as E'. rewrite FloatAxioms.eqb_spec in E'.
  apply SFeqb_true_not_nan in E' as [Hx Hv].
  apply float_is_nan_false in Hx, Hv.
  repeat split; try assumption.
  rewrite float_eqb_key in E by assumption. now apply Z.eqb_eq.
Qed.

Lemma float_is_nan_true (z : float) :
  is_nan z = true -> Prim2SF z = S754_nan.
Proof.
  intro Hz. destruct (Prim2SF z) as [s|s| |s m e] eqn:E; try reflexivity;
    rewrite float_is_nan_false in Hz by (rewrite E; discriminate);
    discriminate.
Qed.

(** NaN is neither below nor above anything. *)
Lemma float_leb_nan (z y : float) :
  is_nan z = true -> (y <=? z)%float = false /\ (z <=? y)%float = false.
Proof.
  intro Hz. apply float_is_nan_true in Hz.
  rewrite !FloatAxioms.leb_spec, Hz. unfold SFleb.
  split; [now destruct (Prim2SF y)|reflexivity].
Qed.

Lemma by_similarity_key (x y : ScoredMatch) :
  not_nan x -> not_nan y ->
  (0 <? by_similarity x y)%float = (sim_key x <? sim_key y)%Z.
Proof. intros Hx Hy. now apply float_sub_pos_key. Qed.

Lemma ties_key (v : float) (x y : ScoredMatch) :
  not_nan x -> not_nan y ->
  (similarity x =? v)%float = true -> (similarity y =? v)%float = true ->
  sim_key x = sim_key y.
Proof.
  intros _ _ Ex Ey.
  apply float_eqb_true in Ex as (_ & _ & Ex), Ey as (_ & _ & Ey).
  unfold sim_key. congruence.
Qed.

(** The threshold test gives one answer on tied matches. *)
Lemma threshold_ties (v : float) (m : ScoredMatch) :
  (similarity m =? v)%float = true ->
  (0.3 <? similarity m)%float = (0.3 <? v)%float.
Proof.
  intro E. apply float_eqb_true in E as (Hm & Hv & E).
  rewrite !float_ltb_key by (assumption || reflexivity).
  now rewrite E.
Qed.

(** *** Arithmetic on zeros *)

Lemma is_zero_SF (x : float) :
  is_zero x = true <-> exists s, Prim2SF x = S754_zero s.
Proof.
  unfold is_zero. rewrite FloatAxioms.eqb_spec.
  change (Prim2SF zero) with (S754_zero false).
  split.
  - destruct (Prim2SF x) as [s|s| |s m e]; cbn; intro E; try discriminate.
    + now exists s.
    + destruct s; discriminate.
    + destruct s; discriminate.
  - intros [s ->]. reflexivity.
Qed.

Lemma is_finite_SF (y : float) :
  is_finite y = true ->
  (exists s, Prim2SF y = S754_zero s)
  \/ (exists s m e, Prim2SF y = S754_finite s m e).
Proof.
  unfold is_finite, is_nan, is_infinity.
  rewrite !FloatAxioms.eqb_spec, abs_spec.
  change (Prim2SF infinity) with (S754_infinity false).
  destruct (Prim2SF y) as [s|s| |s m e]; intro E.
  - left. now exists s.
  - destruct s; discriminate.
  - discriminate.
  - right. now exists s, m, e.
Qed.

Lemma float_zero_mul_finite (x y : float) :
  is_zero x = true -> is_finite y = true -> is_zero (x * y) = true.
Proof.
  intros Hx Hy. apply is_zero_SF in Hx as [sx Ex]. apply is_zero_SF.
  rewrite mul_spec, Ex. unfold SF64mul.
  destruct (is_finite_SF y Hy) as [[sy ->]|(sy & m & e & ->)];
    cbn [SFmul]; eexists; reflexivity.
Qed.

Lemma float_zero_finite (x : float) : is_zero x = true -> is_finite x = true.
Proof.
  intro Hx. pose proof Hx as Hx'. apply is_zero_SF in Hx' as [s E].
  unfold is_finite, is_nan, is_infinity.
  rewrite !FloatAxioms.eqb_spec, abs_spec, E. reflexivity.
Qed.

Lemma float_zero_add (x y : float) :
  is_zero x = true -> is_zero y = true -> is_zero (x + y) = true.
Proof.
  intros Hx Hy. apply is_zero_SF in Hx as [sx Ex], Hy as [sy Ey].
  apply is_zero_SF. rewrite add_spec, Ex, Ey. unfold SF64add.
  destruct sx, sy; cbn [SFadd]; eexists; reflexivity.
Qed.

Lemma float_zero_sqrt (x : float) : is_zero x = true -> is_zero (sqrt x) = true.
Proof.
  intro Hx. apply is_zero_SF in Hx as [s E]. apply is_zero_SF.
  rewrite sqrt_spec, E. now exists s.
Qed.

(** ** cosineSimilarity *)

(** C7.  [cosineSimilarity(a, b)] and [cosineSimilarity(b, a)] are the same
    double, bit for bit, in both services and for all arguments (absent,
    empty, of different lengths, with NaN or infinite entries): the products
    [a[i] * b[i]] commute, the sums run in the same order, and the two norms
    trade places under a commutative product.  The result is a function of
    the two arguments alone: no state is read and none is written. *)
Theorem cosineSimilarity_symmetric (vecA vecB : option (list float)) :
  AIService.cosineSimilarity vecA vecB = AIService.cosineSimilarity vecB vecA
  /\ GCPService.cosineSimilarity vecA vecB = GCPService.cosineSimilarity vecB vecA.
Proof.
  destruct vecA as [a|], vecB as [b|]; try (split; reflexivity).
  unfold AIService.cosineSimilarity, GCPService.cosineSimilarity.
  rewrite (Nat.eqb_sym (length b) (length a)).
  destruct (Nat.eqb_spec (length a) (length b)) as [Hl|Hl];
    cbn [negb]; [|split; reflexivity].
  rewrite (dot_and_norms_zip a b Hl), (dot_and_norms_zip b a (eq_sym Hl)).
  cbn [num_zero float_JsNumber].
  rewrite (zip_sums_swap a b 0 0 0).
  destruct (zip_sums a b (0%float, 0%float, 0%float)) as [[d na] nb].
  cbn [num_mul num_sqrt num_div num_is_zero float_JsNumber].
  rewrite (float_mul_comm (sqrt nb) (sqrt na)). split; reflexivity.
Qed.

(** *** Unusable arguments and the zero-denominator test *)

(** [AIService.cosineSimilarity] returns [0] on absent arrays, on empty
    arrays and on arrays of different lengths. *)
Lemma AIService_cosineSimilarity_unusable (vecA vecB : option (list float)) :
  absent_or_empty vecA = true \/ absent_or_empty vecB = true
  \/ (exists a b, vecA = Some a /\ vecB = Some b /\ length a <> length b) ->
  AIService.cosineSimilarity vecA vecB = 0%float.
Proof.
  intros [Ha|[Hb|(a & b & -> & -> & Hl)]].
  - destruct vecA as [[|x a]|]; try discriminate;
      destruct vecB as [[|y b]|]; reflexivity.
  - destruct vecB as [[|y b]|]; try discriminate;
      destruct vecA as [[|x a]|]; reflexivity.
  - unfold AIService.cosineSimilarity.
    apply Nat.eqb_neq in Hl. now rewrite Hl.
Qed.

(** [GCPService.cosineSimilarity] returns [0] on absent arrays and on
    arrays of different lengths (an empty array against a non-empty one
    among them); two empty arrays are the exception. *)
Lemma GCPService_cosineSimilarity_unusable (vecA vecB : option (list float)) :
  vecA = None \/ vecB = None
  \/ (exists a b, vecA = Some a /\ vecB = Some b /\ length a <> length b) ->
  GCPService.cosineSimilarity vecA vecB = 0%float.
Proof.
  intros [->|[->|(a & b & -> & -> & Hl)]].
  - reflexivity.
  - now destruct vecA.
  - unfold GCPService.cosineSimilarity.
    apply Nat.eqb_neq in Hl. now rewrite Hl.
Qed.

(** The two [cosineSimilarity] return the same double except when the
    denominator is zero, where [AIService] returns [0]. *)
Lemma cosineSimilarity_variants_relation (vecA vecB : option (list float)) :
  AIService.cosineSimilarity vecA vecB = GCPService.cosineSimilarity vecA vecB
  \/ (AIService.cosineSimilarity vecA vecB = 0%float
      /\ exists a b, vecA = Some a /\ vecB = Some b /\ length a = length b
         /\ let '(_, normA, normB) := dot_and_norms a b in
            (sqrt normA * sqrt normB =? 0)%float = true).
Proof.
  destruct vecA as [a|], vecB as [b|]; try (left; reflexivity).
  unfold AIService.cosineSimilarity, GCPService.cosineSimilarity.
  destruct (Nat.eqb_spec (length a) (length b)) as [Hl|Hl]; cbn [negb];
    [|left; reflexivity].
  destruct (dot_and_norms a b) as [[d na] nb] eqn:E.
  cbn [num_mul num_sqrt num_div num_is_zero num_zero float_JsNumber].
  destruct (sqrt na * sqrt nb =? 0)%float eqn:Ez; [right|left; reflexivity].
  split; [reflexivity|]. exists a, b. repeat split; try assumption.
  now rewrite E.
Qed.

Lemma zip_sums_zero_vector (a b : list float) : forall d na nb : float,
  Forall (fun x => is_zero x = true) a ->
  Forall (fun y => is_finite y = true) b ->
  is_zero d = true -> is_zero na = true ->
  is_zero (fst (fst (zip_sums a b (d, na, nb)))) = true
  /\ is_zero (snd (fst (zip_sums a b (d, na, nb)))) = true.
Proof.
  revert b. induction a as [|x a IH]; intros [|y b] d na nb Ha Hb Hd Hna;
    cbn [zip_sums fst snd]; try (split; assumption).
  apply Forall_cons_iff in Ha as [Hx Ha]. apply Forall_cons_iff in Hb as [Hy Hb].
  cbn [num_add num_mul float_JsNumber].
  apply IH; try assumption.
  - apply float_zero_add; [exact Hd|now apply float_zero_mul_finite].
  - apply float_zero_add; [exact Hna|].
    apply float_zero_mul_finite; [exact Hx|now apply float_zero_finite].
Qed.

(** The zero-denominator test of [AIService] at work: when every entry of
    [vecA] is zero, the entries of [vecB] are finite and the norm of [vecB]
    does not overflow, the score is [0]. *)
Lemma AIService_zero_vector (a b : list float) :
  length a = length b ->
  Forall (fun x => is_zero x = true) a ->
  Forall (fun y => is_finite y = true) b ->
  is_finite (sqrt (snd (dot_and_norms a b))) = true ->
  AIService.cosineSimilarity (Some a) (Some b) = 0%float.
Proof.
  intros Hl Ha Hb Hn. unfold AIService.cosineSimilarity.
  rewrite (proj2 (Nat.eqb_eq _ _) Hl). cbn [negb].
  rewrite (dot_and_norms_zip a b Hl) in *. cbn [num_zero float_JsNumber] in *.
  destruct (zip_sums_zero_vector a b 0 0 0 Ha Hb eq_refl eq_refl) as [_ Hna].
  destruct (zip_sums a b (0%float, 0%float, 0%float)) as [[d na] nb].
  cbn [fst snd] in Hna, Hn.
  cbn [num_mul num_sqrt num_is_zero float_JsNumber].
  change (sqrt na * sqrt nb =? 0)%float with (is_zero (sqrt na * sqrt nb)).
  now rewrite (float_zero_mul_finite _ _ (float_zero_sqrt _ Hna) Hn).
Qed.

(** The hypothesis on the norm is needed: when the squares of [vecB]
    overflow, the denominator is [0 * Infinity], NaN, which is not [=== 0]. *)
Example AIService_zero_vector_overflow :
  AIService.cosineSimilarity (Some [0]%float) (Some [1e200]%float) = nan.
Proof. vm_compute. reflexivity. Qed.

(** C2.  On a zero vector the product of the norms is zero.  [AIService] tests
    the denominator and returns [0]; [GCPService] has no such test and
    returns the quotient [0 / 0], which is NaN. *)
Theorem zero_norm_quotient :
  AIService.cosineSimilarity (Some [0; 0]%float) (Some [1; 2]%float) = 0%float
  /\ GCPService.cosineSimilarity (Some [0; 0]%float) (Some [1; 2]%float) = nan
  /\ (GCPService.cosineSimilarity (Some [0; 0]%float) (Some [1; 2]%float) =? 0)%float
     = false.
Proof. repeat split; vm_compute; reflexivity. Qed.

(** C6.  [AIService.cosineSimilarity] returns [0] whenever an argument is
    absent or empty (lengths that differ: lemma
    [AIService_cosineSimilarity_unusable]).  In [GCPService] two empty arrays
    pass the length test (both lengths are 0), the loop does not run, and the
    quotient [0 / (0 * 0)], NaN, is returned.  With one array absent, or
    lengths that differ, [GCPService] returns [0] too. *)
Theorem empty_vectors_quotient :
  (forall v : option (list float),
     AIService.cosineSimilarity None v = 0%float
     /\ AIService.cosineSimilarity v None = 0%float
     /\ AIService.cosineSimilarity (Some []) v = 0%float
     /\ AIService.cosineSimilarity v (Some []) = 0%float)
  /\ GCPService.cosineSimilarity (Some []) (Some (@nil float)) = nan
  /\ (forall v : option (list float),
        GCPService.cosineSimilarity None v = 0%float
        /\ GCPService.cosineSimilarity v None = 0%float)
  /\ GCPService.cosineSimilarity (Some []) (Some [1]%float) = 0%float.
Proof.
  split; [|split; [reflexivity|split; [|reflexivity]]].
  - intro v. repeat split; apply AIService_cosineSimilarity_unusable;
      (now left) || (right; now left).
  - intro v. split; apply GCPService_cosineSimilarity_unusable;
      (now left) || (right; now left).
Qed.

(** C10.  The two [cosineSimilarity] differ where the denominator is zero:
    [0] in [AIService]; in [GCPService] NaN when the dot product is zero too,
    and an infinity when it is not (here the squares of [1e-200] underflow to
    zero while the dot product [1e-100] does not). *)
Theorem cosineSimilarity_variants_differ :
  AIService.cosineSimilarity (Some [0]%float) (Some [1]%float) = 0%float
  /\ GCPService.cosineSimilarity (Some [0]%float) (Some [1]%float) = nan
  /\ AIService.cosineSimilarity (Some [1e-200]%float) (Some [1e100]%float) = 0%float
  /\ GCPService.cosineSimilarity (Some [1e-200]%float) (Some [1e100]%float) = infinity.
Proof. repeat split; vm_compute; reflexivity. Qed.

(** ** The range of the score *)








(** ** [array_sort]: permutation, order, stability *)

Section SortFacts.
Variable A : Type.
Variable comparefn : A -> A -> float.

Lemma sort_insert_perm (x : A) (l : list A) :
  Permutation (sort_insert comparefn x l) (x :: l).
Proof.
  induction l as [|y l IH]; cbn [sort_insert]; [reflexivity|].
  destruct (0 <? comparefn x y)%float; [|reflexivity].
  rewrite IH. apply perm_swap.
Qed.

Lemma array_sort_perm (l : list A) : Permutation (array_sort comparefn l) l.
Proof.
  induction l as [|x l IH]; cbn [array_sort fold_right]; [reflexivity|].
  fold (array_sort comparefn l).
  rewrite sort_insert_perm. now constructor.
Qed.

Lemma array_sort_length (l : list A) :
  length (array_sort comparefn l) = length l.
Proof. apply Permutation_length, array_sort_perm. Qed.

(** A comparator is consistent on the elements that satisfy [good] when
    it orders them as an integer key does. *)
Variable key : A -> Z.
Variable good : A -> Prop.
Hypothesis comparefn_key : forall x y, good x -> good y ->
  (0 <? comparefn x y)%float = (key x <? key y)%Z.

Lemma sort_insert_descending (x : A) (l : list A) :
  good x -> Forall good l -> descending key l ->
  descending key (sort_insert comparefn x l).
Proof.
  intros Gx Gl Sl. induction Sl as [|y l Sl IH Hy]; cbn [sort_insert].
  - repeat constructor.
  - apply Forall_cons_iff in Gl as [Gy Gl].
    rewrite (comparefn_key x y Gx Gy).
    destruct (Z.ltb_spec (key x) (key y)) as [Hlt|Hge].
    + constructor; [now apply IH|].
      rewrite (sort_insert_perm x l). constructor; [lia|exact Hy].
    + constructor; [constructor; assumption|].
      constructor; [exact Hge|].
      revert Hy. apply Forall_impl. intros z Hz. lia.
Qed.

Lemma array_sort_descending (l : list A) :
  Forall good l -> descending key (array_sort comparefn l).
Proof.
  induction 1 as [|x l Gx Gl IH]; cbn [array_sort fold_right].
  - constructor.
  - fold (array_sort comparefn l).
    apply sort_insert_descending; [exact Gx| |exact IH].
    now rewrite (array_sort_perm l).
Qed.

(** Stability: the elements selected by a test that only ever holds of
    tied elements keep their order. *)
Variable tied : A -> bool.
Hypothesis tied_key : forall x y, good x -> good y ->
  tied x = true -> tied y = true -> key x = key y.

Lemma sort_insert_stable (x : A) (l : list A) :
  good x -> Forall good l ->
  filter tied (sort_insert comparefn x l) = filter tied (x :: l).
Proof.
  intros Gx Gl. induction Gl as [|y l Gy Gl IH]; cbn [sort_insert]; [reflexivity|].
  rewrite (comparefn_key x y Gx Gy).
  destruct (Z.ltb_spec (key x) (key y)) as [Hlt|Hge]; [|reflexivity].
  cbn [filter] in *. rewrite IH.
  destruct (tied x) eqn:Tx, (tied y) eqn:Ty; try reflexivity.
  pose proof (tied_key x y Gx Gy Tx Ty). lia.
Qed.

Lemma array_sort_stable (l : list A) :
  Forall good l -> filter tied (array_sort comparefn l) = filter tied l.
Proof.
  induction 1 as [|x l Gx Gl IH]; cbn [array_sort fold_right]; [reflexivity|].
  fold (array_sort comparefn l).
  rewrite sort_insert_stable;
    [cbn [filter]; now rewrite IH|exact Gx|now rewrite (array_sort_perm l)].
Qed.
End SortFacts.

Section SortUnique.
Variable A : Type.
Variable key : A -> Z.

(** The stable sort is unique: a list in descending key order in which,
    for every key, the elements of that key stand as they stand in [l], is
    the list [array_sort] returns.  On a consistent comparator every sort
    that meets the ECMAScript contract therefore returns what the model
    returns. *)
Lemma descending_stable_unique (l1 : list A) : forall l2 : list A,
  descending key l1 -> descending key l2 ->
  (forall v, filter (fun a => (key a =? v)%Z) l1
             = filter (fun a => (key a =? v)%Z) l2) ->
  l1 = l2.
Proof.
  induction l1 as [|x t1 IH]; intros [|y t2] S1 S2 Hf; try reflexivity.
  - specialize (Hf (key y)). cbn [filter] in Hf.
    rewrite Z.eqb_refl in Hf. discriminate.
  - specialize (Hf (key x)). cbn [filter] in Hf.
    rewrite Z.eqb_refl in Hf. discriminate.
  - apply StronglySorted_inv in S1 as [S1 F1].
    apply StronglySorted_inv in S2 as [S2 F2].
    rewrite Forall_forall in F1, F2.
    assert (Hxy : (key x <= key y)%Z).
    { pose proof (Hf (key x)) as H. cbn [filter] in H.
      rewrite Z.eqb_refl in H.
      destruct (key y =? key x)%Z eqn:E; [apply Z.eqb_eq in E; lia|].
      assert (Hin : In x (filter (fun a => (key a =? key x)%Z) t2))
        by (rewrite <- H; now left).
      apply filter_In in Hin as [Hin _]. now apply F2. }
    assert (Hyx : (key y <= key x)%Z).
    { pose proof (Hf (key y)) as H. cbn [filter] in H.
      rewrite Z.eqb_refl in H.
      destruct (key x =? key y)%Z eqn:E; [apply Z.eqb_eq in E; lia|].
      assert (Hin : In y (filter (fun a => (key a =? key y)%Z) t1))
        by (rewrite H; now left).
      apply filter_In in Hin as [Hin _]. now apply F1. }
    assert (Hk : key y = key x) by lia.
    pose proof (Hf (key x)) as H. cbn [filter] in H.
    rewrite Hk, Z.eqb_refl in H. injection H as <- H.
    f_equal. apply IH; try assumption.
    intro v. specialize (Hf v). cbn [filter] in Hf.
    destruct (key x =? v)%Z; [now injection Hf|exact Hf].
Qed.

Variable comparefn : A -> A -> float.
Variable good : A -> Prop.
Hypothesis comparefn_key : forall x y, good x -> good y ->
  (0 <? comparefn x y)%float = (key x <? key y)%Z.

Lemma array_sort_unique (l sorted : list A) :
  Forall good l -> descending key sorted ->
  (forall v, filter (fun a => (key a =? v)%Z) sorted
             = filter (fun a => (key a =? v)%Z) l) ->
  sorted = array_sort comparefn l.
Proof.
  intros G S Hf. apply descending_stable_unique.
  - exact S.
  - now apply (array_sort_descending A comparefn key good comparefn_key).
  - intro v. rewrite Hf. symmetry.
    apply (array_sort_stable A comparefn key good comparefn_key); [|exact G].
    intros x y _ _ Ex Ey. apply Z.eqb_eq in Ex, Ey. congruence.
Qed.
End SortUnique.

(** ** Truncating and filtering a ranked list *)

Section ListFacts.
Variable A : Type.

Lemma StronglySorted_firstn (R : A -> A -> Prop) (n : nat) (l : list A) :
  StronglySorted R l -> StronglySorted R (firstn n l).
Proof.
  intro S. revert n. induction S as [|x l S IH Hx]; intros [|n];
    cbn [firstn]; try constructor.
  - apply IH.
  - apply Forall_forall. intros y Hy. rewrite Forall_forall in Hx.
    apply Hx. rewrite <- (firstn_skipn n l). apply in_or_app. now left.
Qed.

Lemma StronglySorted_filter (R : A -> A -> Prop) (p : A -> bool) (l : list A) :
  StronglySorted R l -> StronglySorted R (filter p l).
Proof.
  induction 1 as [|x l S IH Hx]; cbn [filter]; [constructor|].
  destruct (p x); [|exact IH].
  constructor; [exact IH|].
  apply Forall_forall. intros y Hy. rewrite Forall_forall in Hx.
  apply Hx. now apply filter_In in Hy.
Qed.

Lemma initial_filter_firstn (p : A -> bool) (n : nat) (l : list A) :
  initial (filter p (firstn n l)) (filter p l).
Proof.
  exists (filter p (skipn n l)).
  now rewrite <- filter_app, firstn_skipn.
Qed.

Lemma firstn_subset (n : nat) (l : list A) (x : A) :
  In x (firstn n l) -> In x l.
Proof.
  intro H. rewrite <- (firstn_skipn n l). apply in_or_app. now left.
Qed.

Lemma initial_nil (l : list A) : initial [] l.
Proof. now exists l. Qed.

Lemma initial_trans (l1 l2 l3 : list A) :
  initial l1 l2 -> initial l2 l3 -> initial l1 l3.
Proof.
  intros [r1 ->] [r2 ->]. exists (r1 ++ r2). now rewrite app_assoc.
Qed.

Lemma filter_length_le (p : A -> bool) (l : list A) :
  length (filter p l) <= length l.
Proof.
  induction l as [|x l IH]; cbn [filter length]; [lia|].
  destruct (p x); cbn [length]; lia.
Qed.

Lemma filter_all_or_nothing (p q : A -> bool) (b : bool) (l : list A) :
  (forall x, q x = true -> p x = b) ->
  filter q (filter p l) = if b then filter q l else [].
Proof.
  intro Hpq. induction l as [|x l IH]; cbn [filter]; [now destruct b|].
  destruct (p x) eqn:Px, (q x) eqn:Qx; cbn [filter]; rewrite ?Qx, IH;
    try reflexivity;
    specialize (Hpq x Qx); rewrite Px in Hpq; subst b; reflexivity.
Qed.
End ListFacts.

Lemma descending_non_increasing (l : list ScoredMatch) :
  Forall not_nan l -> descending sim_key l -> non_increasing l.
Proof.
  intros G S. induction S as [|x l S IH Hx]; [constructor|].
  apply Forall_cons_iff in G as [Gx Gl].
  constructor; [now apply IH|].
  rewrite Forall_forall in *. intros y Hy.
  rewrite float_leb_key by (apply Gl, Hy || exact Gx).
  apply Z.leb_le, Hx, Hy.
Qed.

(** The ranking step shared by the two services:
    [similarities.sort(...).slice(0, 3)]. *)
Lemma top3_ranked (scored : list ScoredMatch) :
  Forall not_nan scored ->
  let top := firstn 3 (array_sort by_similarity scored) in
  Forall not_nan top /\ non_increasing top
  /\ forall v, initial (ties v top) (ties v scored).
Proof.
  intros G top.
  assert (Gs : Forall not_nan (array_sort by_similarity scored))
    by now rewrite (array_sort_perm _ by_similarity scored).
  assert (Gt : Forall not_nan top).
  { rewrite Forall_forall in *. intros m Hm. apply Gs.
    rewrite <- (firstn_skipn 3 (array_sort by_similarity scored)).
    apply in_or_app. now left. }
  split; [exact Gt|]. split.
  - apply descending_non_increasing; [exact Gt|].
    apply StronglySorted_firstn.
    exact (array_sort_descending _ by_similarity sim_key not_nan
             by_similarity_key scored G).
  - intro v. unfold ties, top.
    rewrite <- (array_sort_stable _ by_similarity sim_key not_nan
                  by_similarity_key _ (ties_key v) scored G).
    apply initial_filter_firstn.
Qed.

(** ** searchSimilarBugs *)

Lemma AI_search_unfold (provider : EmbeddingProvider) (query : string)
  (bugs : list Bug) :
  AIService.searchSimilarBugs provider query (Some bugs)
  = Return
      (if absent_or_empty (AIService.generateEmbedding provider query) then []
       else filter (fun item => (0.3 <? similarity item)%float)
              (firstn 3 (array_sort by_similarity
                 (map (AIService.score (AIService.generateEmbedding provider query))
                      bugs)))).
Proof.
  unfold AIService.searchSimilarBugs.
  destruct (absent_or_empty (AIService.generateEmbedding provider query));
    reflexivity.
Qed.

Lemma GCP_search_unfold (provider : EmbeddingProvider) (query : string)
  (bugs : list Bug) :
  GCPService.searchSimilarBugs provider query (Some bugs)
  = Return
      (firstn 3 (array_sort by_similarity
         (map (GCPService.score (GCPService.generateEmbedding provider query))
              bugs))).
Proof. reflexivity. Qed.

Lemma threshold_ranked (top scored : list ScoredMatch) :
  non_increasing top -> (forall v, initial (ties v top) (ties v scored)) ->
  let r := filter (fun item => (0.3 <? similarity item)%float) top in
  non_increasing r /\ forall v, initial (ties v r) (ties v scored).
Proof.
  intros S P r. split; [now apply StronglySorted_filter|].
  intro v. unfold ties, r.
  rewrite (filter_all_or_nothing _ _ _ (0.3 <? v)%float top (threshold_ties v)).
  destruct (0.3 <? v)%float; [apply P|apply initial_nil].
Qed.

(** A list of two or more matches that holds a NaN similarity is in no
    order at all, however it is arranged. *)
Lemma nan_not_ranked (r : list ScoredMatch) (z : ScoredMatch) :
  In z r -> is_nan (similarity z) = true -> 2 <= length r ->
  ~ non_increasing r.
Proof.
  intros Hin Hz Hlen S. apply in_split in Hin as (l1 & l2 & ->).
  destruct l1 as [|x l1].
  - destruct l2 as [|y l2]; [cbn in Hlen; lia|].
    apply StronglySorted_inv in S as [_ F]. apply Forall_inv in F.
    destruct (float_leb_nan (similarity z) (similarity y) Hz) as [Hf _].
    congruence.
  - apply StronglySorted_inv in S as [_ F]. rewrite Forall_forall in F.
    specialize (F z (in_elt z l1 l2)). cbn beta in F.
    destruct (float_leb_nan (similarity z) (similarity x) Hz) as [_ Hf].
    congruence.
Qed.

(** C1, as the code has it.  Both services return at most 3 matches, each
    of them one of the scored candidates, and never throw on a list of
    candidates.  Whenever no candidate's score is NaN, the matches are in
    non-increasing order of similarity, and for every value [v] the returned
    matches of similarity [v] are the first ones, in candidate order, among
    the candidates that score [v]. *)
Theorem searchSimilarBugs_ranked (provider : EmbeddingProvider)
  (query : string) (bugs : list Bug) :
  (let scored :=
     map (AIService.score (AIService.generateEmbedding provider query)) bugs in
   exists r, AIService.searchSimilarBugs provider query (Some bugs) = Return r
     /\ length r <= 3
     /\ incl r scored
     /\ (Forall not_nan scored ->
         non_increasing r /\ forall v, initial (ties v r) (ties v scored)))
  /\
  (let scored :=
     map (GCPService.score (GCPService.generateEmbedding provider query)) bugs in
   exists r, GCPService.searchSimilarBugs provider query (Some bugs) = Return r
     /\ length r <= 3
     /\ incl r scored
     /\ (Forall not_nan scored ->
         non_increasing r /\ forall v, initial (ties v r) (ties v scored))).
Proof.
  split; intro scored.
  - rewrite AI_search_unfold. fold scored. eexists. split; [reflexivity|].
    destruct (absent_or_empty _).
    + split; [cbn; lia|]. split; [intros m []|]. intros _.
      split; [constructor|]. intro v. apply initial_nil.
    + split; [|split].
      * etransitivity; [apply filter_length_le|]. apply firstn_le_length.
      * intros m Hm. apply filter_In in Hm as [Hm _].
        apply firstn_subset in Hm.
        exact (Permutation_in _ (array_sort_perm _ by_similarity scored) Hm).
      * intro G. destruct (top3_ranked _ G) as (_ & S & P).
        now apply threshold_ranked.
  - rewrite GCP_search_unfold. fold scored. eexists. split; [reflexivity|].
    split; [apply firstn_le_length|]. split.
    + intros m Hm. apply firstn_subset in Hm.
      exact (Permutation_in _ (array_sort_perm _ by_similarity scored) Hm).
    + intro G. destruct (top3_ranked _ G) as (_ & S & P). now split.
Qed.

(** C1 on the five candidates: no score is NaN, and [AIService] returns
    three matches in non-increasing order. *)
Lemma searchSimilarBugs_ranked_witness :
  Forall not_nan
    (map (AIService.score (AIService.generateEmbedding (always five_query) "q"))
         five_candidates)
  /\ exists r,
       AIService.searchSimilarBugs (always five_query) "q" (Some five_candidates)
       = Return r
       /\ length r = 3 /\ non_increasing r.
Proof.
  assert (G : Forall not_nan
    (map (AIService.score (AIService.generateEmbedding (always five_query) "q"))
         five_candidates))
    by (repeat constructor).
  split; [exact G|].
  destruct (searchSimilarBugs_ranked (always five_query) "q" five_candidates)
    as [(r & E & L & _ & S) _].
  exists r. split; [exact E|]. split; [|exact (proj1 (S G))].
  vm_compute in E. injection E as <-. reflexivity.
Defined.

(** C1, as stated, fails when a score is NaN: the comparator then answers
    NaN, which sorts as a tie with everything.  In [AIService] an overflowing
    dot product ([Infinity - Infinity]) gives such a score; the NaN match is
    dropped by the threshold and the two that remain are in increasing
    order.  In [GCPService] an all-zero embedding is enough; the NaN match is
    returned between the two, and no arrangement of the three matches would
    be in non-increasing order. *)
Lemma searchSimilarBugs_unordered :
  (exists a b,
     AIService.searchSimilarBugs (always [1e10; 1e10]%float) "q"
       (Some overflow_candidates) = Return [a; b]
     /\ (similarity a <? similarity b)%float = true
     /\ ~ non_increasing [a; b])
  /\
  (exists a z b,
     GCPService.searchSimilarBugs (always [1; 1]%float) "q"
       (Some zero_candidates) = Return [a; z; b]
     /\ is_nan (similarity z) = true
     /\ (similarity a <? similarity b)%float = true
     /\ ~ non_increasing [a; z; b]
     /\ forall r, Permutation r [a; z; b] -> ~ non_increasing r).
Proof.
  split.
  - do 2 eexists. split; [vm_compute; reflexivity|].
    split; [vm_compute; reflexivity|].
    intro S. apply StronglySorted_inv in S as [_ F].
    apply Forall_inv in F. vm_compute in F. discriminate.
  - do 3 eexists. split; [vm_compute; reflexivity|].
    split; [vm_compute; reflexivity|].
    split; [vm_compute; reflexivity|].
    assert (P : forall r,
      Permutation r
        [ {| bug := sample_bug "A" (Some [1; 0]%float);
             similarity := 0.70710678118654746 |};
          {| bug := sample_bug "Z" (Some [0; 0]%float); similarity := nan |};
          {| bug := sample_bug "B" (Some [1; 1]%float);
             similarity := 0.99999999999999978 |} ] ->
      ~ non_increasing r).
    { intros r Hp.
      apply nan_not_ranked
        with (z := {| bug := sample_bug "Z" (Some [0; 0]%float);
                      similarity := nan |}).
      - apply (Permutation_in _ (Permutation_sym Hp)). right. now left.
      - reflexivity.
      - rewrite (Permutation_length Hp). cbn. lia. }
    split; [apply P; reflexivity|exact P].
Qed.

(** [AIService] answers an unavailable query embedding (a failed call, an
    empty vector, a missing field) with the empty list, whatever the
    candidates are, even when they are absent. *)
Lemma AIService_embedding_unavailable (provider : EmbeddingProvider)
  (query : string) (bugEmbeddings : option (list Bug)) :
  absent_or_empty (AIService.generateEmbedding provider query) = true ->
  AIService.searchSimilarBugs provider query bugEmbeddings = Return [].
Proof.
  intro E. unfold AIService.searchSimilarBugs. rewrite E. reflexivity.
Qed.

Lemma AIService_failed_call (provider : EmbeddingProvider) (query : string)
  (message : string) :
  provider query = EmbedError message ->
  absent_or_empty (AIService.generateEmbedding provider query) = true.
Proof. unfold AIService.generateEmbedding. now intros ->. Qed.

(** C3.  [AIService.searchSimilarBugs] returns the empty list, and does
    not throw, when the embedding call throws, yields an empty vector or
    yields nothing, whatever the query and the candidates (even absent
    ones).  [GCPService.searchSimilarBugs] has no test of the query
    embedding: the empty vector has a different length from every stored
    embedding, each candidate scores [0], and the first three candidates are
    returned as matches. *)
Theorem search_without_query_embedding :
  (forall (query message : string) (bugEmbeddings : option (list Bug)),
     AIService.searchSimilarBugs (fun _ => EmbedError message) query bugEmbeddings
     = Return []
     /\ AIService.searchSimilarBugs (fun _ => EmbedValues (Some [])) query
          bugEmbeddings = Return []
     /\ AIService.searchSimilarBugs (fun _ => EmbedValues None) query
          bugEmbeddings = Return [])
  /\ (exists a b c,
        GCPService.searchSimilarBugs failing "q" (Some five_candidates)
        = Return [a; b; c]
        /\ map (fun m => title (bug m)) [a; b; c] = ["A"; "B"; "C"]%string
        /\ map similarity [a; b; c] = [0; 0; 0]%float)
  /\ (exists a b c,
        GCPService.searchSimilarBugs (always []) "q" (Some five_candidates)
        = Return [a; b; c]
        /\ map similarity [a; b; c] = [0; 0; 0]%float).
Proof.
  split; [|split].
  - intros query message bugEmbeddings.
    repeat split; now apply AIService_embedding_unavailable.
  - do 3 eexists. split; [vm_compute; reflexivity|]. split; reflexivity.
  - do 3 eexists. split; [vm_compute; reflexivity|]. reflexivity.
Qed.

Lemma float_ltb_true_not_nan (c x : float) :
  (c <? x)%float = true -> is_nan c = false /\ is_nan x = false.
Proof.
  rewrite FloatAxioms.ltb_spec. unfold SFltb. intro L.
  split; apply float_is_nan_false;
    destruct (Prim2SF c), (Prim2SF x); cbn in L; discriminate.
Qed.

Lemma float_ltb_true_not_leb (c x : float) :
  (c <? x)%float = true -> (x <=? c)%float = false.
Proof.
  intro L. destruct (float_ltb_true_not_nan _ _ L) as [Hc Hx].
  rewrite float_ltb_key in L by assumption.
  rewrite float_leb_key by assumption.
  apply Z.ltb_lt in L. apply Z.leb_gt. exact L.
Qed.

(** C4.  Every match returned by [AIService.searchSimilarBugs] has a
    similarity strictly above the double 0.3, hence none at or below it (and
    none that is NaN); the function returns and does not throw, whatever the
    provider, the query and the candidates. *)
Theorem AIService_matches_above_threshold (provider : EmbeddingProvider)
  (query : string) (bugEmbeddings : option (list Bug)) :
  exists r,
    AIService.searchSimilarBugs provider query bugEmbeddings = Return r
    /\ Forall (fun m => (0.3 <? similarity m)%float = true
                        /\ (similarity m <=? 0.3)%float = false
                        /\ is_nan (similarity m) = false) r.
Proof.
  destruct bugEmbeddings as [bugs|].
  - rewrite AI_search_unfold. eexists. split; [reflexivity|].
    destruct (absent_or_empty _); [constructor|].
    apply Forall_forall. intros m Hm. apply filter_In in Hm as [_ Hm].
    split; [exact Hm|]. split; [now apply float_ltb_true_not_leb|].
    exact (proj2 (float_ltb_true_not_nan _ _ Hm)).
  - exists []. split; [|constructor].
    unfold AIService.searchSimilarBugs.
    destruct (absent_or_empty _); reflexivity.
Qed.

(** *** The five-candidate scenario *)

Lemma zero_is_not_0_9 : (0 : float)%float <> 0.9%float.
Proof.
  intro E. apply (f_equal (fun v => (v <? 0.5)%float)) in E.
  vm_compute in E. discriminate.
Qed.

(** A score of 0.9 cannot come from an unusable query embedding. *)
Lemma AIService_score_unusable_query (queryEmbedding : option (list float))
  (b : Bug) :
  absent_or_empty queryEmbedding = true ->
  similarity (AIService.score queryEmbedding b) = 0%float.
Proof.
  intro E. unfold AIService.score.
  destruct (embedding b) as [[|y e]|]; try reflexivity.
  destruct queryEmbedding as [[|x q]|]; try discriminate; reflexivity.
Qed.

(** C5, as the code has it.  When five candidates score 0.9, 0.8, 0.35,
    0.2 and 0.1 in that order, both services return exactly the first three,
    in that order: [GCPService], which has no threshold, and [AIService]
    too, since 0.35 passes its test [similarity > 0.3]. *)
Theorem five_scores_top_three (provider : EmbeddingProvider) (query : string)
  (bugs : list Bug) :
  (let scored :=
     map (AIService.score (AIService.generateEmbedding provider query)) bugs in
   map similarity scored = [0.9; 0.8; 0.35; 0.2; 0.1]%float ->
   AIService.searchSimilarBugs provider query (Some bugs)
   = Return (firstn 3 scored))
  /\
  (let scored :=
     map (GCPService.score (GCPService.generateEmbedding provider query)) bugs in
   map similarity scored = [0.9; 0.8; 0.35; 0.2; 0.1]%float ->
   GCPService.searchSimilarBugs provider query (Some bugs)
   = Return (firstn 3 scored)).
Proof.
  split; intros scored H.
  - rewrite AI_search_unfold. fold scored.
    destruct (absent_or_empty (AIService.generateEmbedding provider query))
      eqn:Eq.
    + exfalso. subst scored. destruct bugs as [|b bugs]; [discriminate|].
      cbn [map] in H. injection H as H _.
      rewrite AIService_score_unusable_query in H by exact Eq.
      now apply zero_is_not_0_9.
    + destruct scored as [|[b1 s1] [|[b2 s2] [|[b3 s3] [|[b4 s4] [|[b5 s5] [|]]]]]];
        try discriminate.
      cbn [map similarity] in H.
      injection H as -> -> -> -> ->. vm_compute. reflexivity.
  - rewrite GCP_search_unfold. fold scored.
    destruct scored as [|[b1 s1] [|[b2 s2] [|[b3 s3] [|[b4 s4] [|[b5 s5] [|]]]]]];
      try discriminate.
    cbn [map similarity] in H.
    injection H as -> -> -> -> ->. vm_compute. reflexivity.
Qed.

(** C5 on five candidates that score 0.9, 0.8, 0.35, 0.2 and 0.1. *)
Lemma five_scores_top_three_witness :
  map similarity
    (map (AIService.score (AIService.generateEmbedding (always five_query) "q"))
         five_candidates)
  = [0.9; 0.8; 0.35; 0.2; 0.1]%float
  /\ AIService.searchSimilarBugs (always five_query) "q" (Some five_candidates)
     = Return
         (firstn 3
            (map (AIService.score
                    (AIService.generateEmbedding (always five_query) "q"))
                 five_candidates))
  /\ GCPService.searchSimilarBugs (always five_query) "q" (Some five_candidates)
     = Return
         (firstn 3
            (map (GCPService.score
                    (GCPService.generateEmbedding (always five_query) "q"))
                 five_candidates)).
Proof.
  split; [reflexivity|].
  destruct (five_scores_top_three (always five_query) "q" five_candidates)
    as [HA HG].
  split; [apply HA|apply HG]; reflexivity.
Defined.

(** C5, as stated, fails for the threshold variant: on candidates that
    score 0.9, 0.8, 0.35, 0.2, 0.1 [AIService] returns three matches, of
    similarities 0.9, 0.8 and 0.35, not two. *)
Lemma five_scores_threshold_keeps_three :
  map similarity
    (map (AIService.score (AIService.generateEmbedding (always five_query) "q"))
         five_candidates)
  = [0.9; 0.8; 0.35; 0.2; 0.1]%float
  /\ exists r,
       AIService.searchSimilarBugs (always five_query) "q" (Some five_candidates)
       = Return r
       /\ map similarity r = [0.9; 0.8; 0.35]%float
       /\ length r <> 2.
Proof.
  split; [reflexivity|].
  eexists. split; [vm_compute; reflexivity|].
  split; [reflexivity|]. cbn. lia.
Qed.

(** ** The context block of generateBugSolution *)

Lemma append_assoc (a b c : string) :
  ((a ++ b) ++ c = a ++ (b ++ c))%string.
Proof. induction a as [|ch a IH]; cbn [append]; [reflexivity|now rewrite IH]. Qed.

Lemma append_nil_r (a : string) : (a ++ "")%string = a.
Proof. induction a as [|ch a IH]; cbn [append]; [reflexivity|now rewrite IH]. Qed.

Lemma prefix_append (p rest : string) : String.prefix p (p ++ rest) = true.
Proof.
  induction p as [|c p IH]; cbn [append String.prefix]; [now destruct rest|].
  destruct (ascii_dec c c) as [_|N]; [exact IH|congruence].
Qed.

(** [join] around one element: what precedes it is the join of the earlier
    elements, and what follows it the join of the later ones. *)
Lemma concat_around (sep : string) (xs : list string) (y : string)
  (zs : list string) :
  String.concat sep (xs ++ y :: zs)
  = ((String.concat sep xs ++ match xs with [] => "" | _ => sep end) ++
     y ++
     match zs with [] => "" | _ => sep ++ String.concat sep zs end)%string.
Proof.
  induction xs as [|x xs IH].
  - cbn [app String.concat append]. destruct zs as [|z zs].
    + now rewrite append_nil_r.
    + reflexivity.
  - replace (String.concat sep ((x :: xs) ++ y :: zs))
      with (x ++ sep ++ String.concat sep (xs ++ y :: zs))%string
      by (destruct xs; reflexivity).
    rewrite IH. destruct xs as [|x' xs].
    + cbn [String.concat append]. now rewrite !append_assoc.
    + cbn [String.concat]. now rewrite !append_assoc.
Qed.

Lemma context_entries_length (NumberToString : float -> string)
  (similarBugs : list ScoredMatch) : forall start,
  length (context_entries NumberToString start similarBugs) = length similarBugs.
Proof.
  induction similarBugs as [|item rest IH]; intro start;
    cbn [context_entries length]; [reflexivity|now rewrite IH].
Qed.

Lemma context_entries_app (NumberToString : float -> string)
  (earlier : list ScoredMatch) (item : ScoredMatch) (later : list ScoredMatch) :
  forall start,
  context_entries NumberToString start (earlier ++ item :: later)
  = context_entries NumberToString start earlier
    ++ context_entry NumberToString (start + length earlier) item
    :: context_entries NumberToString (S (start + length earlier)) later.
Proof.
  induction earlier as [|e earlier IH]; intro start;
    cbn [app context_entries length].
  - now rewrite Nat.add_0_r.
  - rewrite IH. now rewrite <- !Nat.add_succ_comm.
Qed.

Lemma context_entry_contents (NumberToString : float -> string) (idx : nat)
  (item : ScoredMatch) :
  let entry := context_entry NumberToString idx item in
  String.prefix ("Bug " ++ decimal_of_N (N.of_nat (idx + 1)) ++ " (Similarity: ")
                entry = true
  /\ contains (toFixed1 NumberToString (similarity item * 100)%float ++ "%") entry
  /\ contains ("Title: " ++ title (bug item) ++ newline) entry
  /\ contains ("Description: " ++ description (bug item) ++ newline) entry
  /\ contains ("Solution: " ++ solution (bug item) ++ newline) entry
  /\ contains ("Tags: " ++ String.concat ", " (tags (bug item)) ++ newline) entry.
Proof.
  intro entry. unfold entry, context_entry.
  set (n := decimal_of_N (N.of_nat (idx + 1))).
  set (pct := toFixed1 NumberToString (similarity item * 100)%float).
  set (t := title (bug item)). set (d := description (bug item)).
  set (s := solution (bug item)).
  set (g := String.concat ", " (tags (bug item))).
  split.
  { replace ("Bug " ++ n ++ " (Similarity: " ++ pct ++ "%):" ++ newline ++
             "Title: " ++ t ++ newline ++ "Description: " ++ d ++ newline ++
             "Solution: " ++ s ++ newline ++ "Tags: " ++ g ++ newline ++
             "---")%string
      with (("Bug " ++ n ++ " (Similarity: ") ++
            (pct ++ "%):" ++ newline ++
             "Title: " ++ t ++ newline ++ "Description: " ++ d ++ newline ++
             "Solution: " ++ s ++ newline ++ "Tags: " ++ g ++ newline ++
             "---"))%string
      by (rewrite !append_assoc; reflexivity).
    apply prefix_append. }
  split.
  { exists ("Bug " ++ n ++ " (Similarity: ")%string,
      ("):" ++ newline ++ "Title: " ++ t ++ newline ++ "Description: " ++ d ++
       newline ++ "Solution: " ++ s ++ newline ++ "Tags: " ++ g ++ newline ++
       "---")%string.
    rewrite !append_assoc. reflexivity. }
  split.
  { exists ("Bug " ++ n ++ " (Similarity: " ++ pct ++ "%):" ++ newline)%string,
      ("Description: " ++ d ++ newline ++ "Solution: " ++ s ++ newline ++
       "Tags: " ++ g ++ newline ++ "---")%string.
    rewrite !append_assoc. reflexivity. }
  split.
  { exists ("Bug " ++ n ++ " (Similarity: " ++ pct ++ "%):" ++ newline ++
            "Title: " ++ t ++ newline)%string,
      ("Solution: " ++ s ++ newline ++ "Tags: " ++ g ++ newline ++ "---")%string.
    rewrite !append_assoc. reflexivity. }
  split.
  { exists ("Bug " ++ n ++ " (Similarity: " ++ pct ++ "%):" ++ newline ++
            "Title: " ++ t ++ newline ++ "Description: " ++ d ++ newline)%string,
      ("Tags: " ++ g ++ newline ++ "---")%string.
    rewrite !append_assoc. reflexivity. }
  { exists ("Bug " ++ n ++ " (Similarity: " ++ pct ++ "%):" ++ newline ++
            "Title: " ++ t ++ newline ++ "Description: " ++ d ++ newline ++
            "Solution: " ++ s ++ newline)%string,
      "---"%string.
    rewrite !append_assoc. reflexivity. }
Qed.

Lemma nth_error_middle {A : Type} (xs : list A) (y : A) (zs : list A) (n : nat) :
  length xs = n -> nth_error (xs ++ y :: zs) n = Some y.
Proof. intros <-. induction xs as [|x xs IH]; [reflexivity|exact IH]. Qed.

(** C9.  For a match [item] at any position of [similarBugs], with
    [earlier] before it and [later] after it: the block has one entry per
    match; the entry at the position of [item] is the one built from [item]
    and numbered from 1; the block is the block of the earlier matches, then
    this entry, then the entries of the later matches, separated by empty
    lines, so entries come in the order of the list, the first match first;
    the entry holds the similarity as a percentage with one decimal, the
    title, the description, the stored solution and the tags joined by
    [", "]; and the prompt of either service holds the block. *)
Theorem context_lists_matches_in_order (NumberToString : float -> string)
  (earlier : list ScoredMatch) (item : ScoredMatch) (later : list ScoredMatch) :
  let similarBugs := earlier ++ item :: later in
  let entry := context_entry NumberToString (length earlier) item in
  length (context_entries NumberToString 0 similarBugs) = length similarBugs
  /\ nth_error (context_entries NumberToString 0 similarBugs) (length earlier)
     = Some entry
  /\ context NumberToString similarBugs
     = ((context NumberToString earlier ++
         match earlier with [] => "" | _ => blank_line end) ++
        entry ++
        match later with
        | [] => ""
        | _ => blank_line ++
               String.concat blank_line
                 (context_entries NumberToString (S (length earlier)) later)
        end)%string
  /\ String.prefix
       ("Bug " ++ decimal_of_N (N.of_nat (length earlier + 1)) ++ " (Similarity: ")
       entry = true
  /\ contains (toFixed1 NumberToString (similarity item * 100)%float ++ "%") entry
  /\ contains ("Title: " ++ title (bug item) ++ newline) entry
  /\ contains ("Description: " ++ description (bug item) ++ newline) entry
  /\ contains ("Solution: " ++ solution (bug item) ++ newline) entry
  /\ contains ("Tags: " ++ String.concat ", " (tags (bug item)) ++ newline) entry
  /\ (forall query,
        contains (context NumberToString similarBugs)
                 (AIService.prompt NumberToString query similarBugs)
        /\ contains (context NumberToString similarBugs)
                    (GCPService.prompt NumberToString query similarBugs)).
Proof.
  intros similarBugs entry.
  split; [apply context_entries_length|].
  assert (E : context_entries NumberToString 0 similarBugs
              = context_entries NumberToString 0 earlier
                ++ entry :: context_entries NumberToString (S (length earlier)) later)
    by (unfold similarBugs; now rewrite context_entries_app).
  split.
  { rewrite E. apply nth_error_middle, context_entries_length. }
  split.
  { unfold context. fold blank_line. rewrite E, concat_around.
    unfold context. fold blank_line.
    destruct earlier, later; reflexivity. }
  destruct (context_entry_contents NumberToString (length earlier) item)
    as (H1 & H2 & H3 & H4 & H5 & H6).
  repeat (split; [assumption|]).
  intro query. split.
  - unfold AIService.prompt.
    exists ("Based on these similar bugs I've solved before, help me with this new issue:" ++
            newline ++ newline ++ "QUERY: " ++ query ++
            newline ++ newline ++ "SIMILAR PAST SOLUTIONS:" ++ newline)%string.
    eexists. rewrite !append_assoc. reflexivity.
  - unfold GCPService.prompt.
    exists ("Based on these similar bugs I've solved before, help me with this new issue:" ++
            newline ++ newline ++ "QUERY: " ++ query ++
            newline ++ newline ++ "SIMILAR PAST SOLUTIONS:" ++ newline)%string.
    eexists. rewrite !append_assoc. reflexivity.
Qed.

(** The block of the two best matches of the five-candidate scenario. *)
Example context_of_two_matches :
  context (fun _ => "1e+21"%string)
    [ {| bug := sample_bug "A" None; similarity := 0.9 |};
      {| bug := sample_bug "B" None; similarity := 0.35 |} ]
  = ("Bug 1 (Similarity: 90.0%):" ++ newline ++
     "Title: A" ++ newline ++
     "Description: steps" ++ newline ++
     "Solution: fix" ++ newline ++
     "Tags: api, db" ++ newline ++
     "---" ++ newline ++ newline ++
     "Bug 2 (Similarity: 35.0%):" ++ newline ++
     "Title: B" ++ newline ++
     "Description: steps" ++ newline ++
     "Solution: fix" ++ newline ++
     "Tags: api, db" ++ newline ++
     "---")%string.
Proof. vm_compute. reflexivity. Qed.

(** * Further properties of the services *)

(** ** The comparator *)

Lemma float_sub_nan (x y : float) :
  is_nan x = true \/ is_nan y = true ->
  (0 <? y - x)%float = false /\ (x <? y)%float = false.
Proof.
  intro H. rewrite !FloatAxioms.ltb_spec, sub_spec.
  unfold SFltb, SF64sub.
  destruct H as [H|H]; apply float_is_nan_true in H; rewrite H.
  - split; [|reflexivity]. now destruct (Prim2SF y).
  - split; [reflexivity|]. now destruct (Prim2SF 0), (Prim2SF x).
Qed.

(** X1.  The comparator [(a, b) => b.similarity - a.similarity] answers
    above zero exactly when [b.similarity] is above [a.similarity], for all
    doubles: the difference of two distinct finite doubles never rounds to
    zero, a difference that overflows keeps its sign, and a NaN on either
    side makes both tests false. *)
Theorem by_similarity_sign (a b : ScoredMatch) :
  (0 <? by_similarity a b)%float = (similarity a <? similarity b)%float.
Proof.
  unfold by_similarity.
  destruct (is_nan (similarity a)) eqn:Ha.
  - destruct (float_sub_nan (similarity a) (similarity b) (or_introl Ha))
      as [-> ->]. reflexivity.
  - destruct (is_nan (similarity b)) eqn:Hb.
    + destruct (float_sub_nan (similarity a) (similarity b) (or_intror Hb))
        as [-> ->]. reflexivity.
    + now rewrite float_sub_pos_key, float_ltb_key.
Qed.

(** ** cosineSimilarity in AIService *)

(** X2.  [AIService.cosineSimilarity] returns [0] whenever an argument is
    absent or empty, or the two lengths differ. *)
Theorem AIService_cosineSimilarity_neutral (vecA vecB : option (list float)) :
  absent_or_empty vecA = true \/ absent_or_empty vecB = true
  \/ (exists a b, vecA = Some a /\ vecB = Some b /\ length a <> length b) ->
  AIService.cosineSimilarity vecA vecB = 0%float.
Proof. apply AIService_cosineSimilarity_unusable. Qed.

Lemma AIService_cosineSimilarity_neutral_witness :
  AIService.cosineSimilarity (Some [1; 2]%float) (Some [1; 2; 3]%float)
  = 0%float.
Proof.
  apply AIService_cosineSimilarity_neutral. right. right.
  exists [1; 2]%float, [1; 2; 3]%float.
  split; [reflexivity|]. split; [reflexivity|]. cbn. lia.
Defined.

(** X3.  When every entry of [vecA] is zero, the entries of [vecB] are
    finite and the norm of [vecB] does not overflow,
    [AIService.cosineSimilarity] returns [0]: the denominator test catches
    the zero norm. *)
Theorem AIService_cosineSimilarity_zero_vector (a b : list float) :
  length a = length b ->
  Forall (fun x => is_zero x = true) a ->
  Forall (fun y => is_finite y = true) b ->
  is_finite (sqrt (snd (dot_and_norms a b))) = true ->
  AIService.cosineSimilarity (Some a) (Some b) = 0%float.
Proof. apply AIService_zero_vector. Qed.

Lemma AIService_cosineSimilarity_zero_vector_witness :
  AIService.cosineSimilarity (Some [0; -0]%float) (Some [3; 4]%float) = 0%float.
Proof.
  apply AIService_cosineSimilarity_zero_vector.
  - reflexivity.
  - repeat constructor.
  - repeat constructor.
  - reflexivity.
Defined.

(** X4.  The two [cosineSimilarity] return the same double on all
    arguments, except on equal-length arrays whose denominator
    [Math.sqrt(normA) * Math.sqrt(normB)] is [=== 0], where [AIService]
    returns [0]. *)
Theorem cosineSimilarity_services_agree (vecA vecB : option (list float)) :
  AIService.cosineSimilarity vecA vecB = GCPService.cosineSimilarity vecA vecB
  \/ (AIService.cosineSimilarity vecA vecB = 0%float
      /\ exists a b, vecA = Some a /\ vecB = Some b /\ length a = length b
         /\ let '(_, normA, normB) := dot_and_norms a b in
            (sqrt normA * sqrt normB =? 0)%float = true).
Proof. apply cosineSimilarity_variants_relation. Qed.

(** ** searchSimilarBugs: which candidates are returned *)

Lemma StronglySorted_app_cross {A : Type} (R : A -> A -> Prop) (l1 l2 : list A) :
  StronglySorted R (l1 ++ l2) ->
  forall x y, In x l1 -> In y l2 -> R x y.
Proof.
  induction l1 as [|a l1 IH]; intros S x y Hx Hy; [destruct Hx|].
  cbn [app] in S. apply StronglySorted_inv in S as [S F].
  destruct Hx as [<-|Hx].
  - rewrite Forall_forall in F. apply F, in_or_app. now right.
  - now apply IH.
Qed.

Lemma sorted_scores (scored : list ScoredMatch) :
  Forall not_nan scored ->
  Forall not_nan (array_sort by_similarity scored)
  /\ descending sim_key (array_sort by_similarity scored).
Proof.
  intro G. split.
  - now rewrite (array_sort_perm _ by_similarity scored).
  - exact (array_sort_descending _ by_similarity sim_key not_nan
             by_similarity_key scored G).
Qed.

Lemma leb_of_keys (x y : ScoredMatch) :
  not_nan x -> not_nan y -> (sim_key y <= sim_key x)%Z ->
  (similarity y <=? similarity x)%float = true.
Proof.
  intros Hx Hy Hk. rewrite float_leb_key by assumption. now apply Z.leb_le.
Qed.

(** The matches left out by [slice(0, 3)] are no more similar than the ones
    kept. *)
Lemma top3_outranks_rest (scored : list ScoredMatch) :
  Forall not_nan scored ->
  forall x y,
    In x (firstn 3 (array_sort by_similarity scored)) ->
    In y (skipn 3 (array_sort by_similarity scored)) ->
    (similarity y <=? similarity x)%float = true.
Proof.
  intros G x y Hx Hy. destruct (sorted_scores scored G) as [Gs S].
  rewrite Forall_forall in Gs.
  apply leb_of_keys.
  - apply Gs. now apply firstn_subset in Hx.
  - apply Gs. rewrite <- (firstn_skipn 3 (array_sort by_similarity scored)).
    apply in_or_app. now right.
  - unfold descending in S.
    rewrite <- (firstn_skipn 3 (array_sort by_similarity scored)) in S.
    exact (StronglySorted_app_cross _ _ _ S x y Hx Hy).
Qed.

(** X5.  [GCPService.searchSimilarBugs] returns exactly [min(3, n)] matches
    for [n] candidates, whatever their scores (there is no relevance test);
    and when no score is NaN, every candidate left out scores no more than
    every match returned. *)
Theorem GCPService_returns_the_best (provider : EmbeddingProvider)
  (query : string) (bugs : list Bug) :
  let scored :=
    map (GCPService.score (GCPService.generateEmbedding provider query)) bugs in
  exists r rest,
    GCPService.searchSimilarBugs provider query (Some bugs) = Return r
    /\ length r = Nat.min 3 (length bugs)
    /\ Permutation (r ++ rest) scored
    /\ (Forall not_nan scored ->
        forall x y, In x r -> In y rest ->
          (similarity y <=? similarity x)%float = true).
Proof.
  intro scored. rewrite GCP_search_unfold. fold scored.
  exists (firstn 3 (array_sort by_similarity scored)),
         (skipn 3 (array_sort by_similarity scored)).
  split; [reflexivity|]. split.
  - rewrite length_firstn, array_sort_length. unfold scored.
    now rewrite length_map.
  - split; [|intro G; now apply top3_outranks_rest].
    rewrite firstn_skipn. apply array_sort_perm.
Qed.

Lemma threshold_key (m : ScoredMatch) :
  not_nan m ->
  (0.3 <? similarity m)%float = (float_key 0.3 <? sim_key m)%Z.
Proof. intro Hm. now rewrite float_ltb_key. Qed.

(** X6.  [AIService.searchSimilarBugs], on a usable query embedding and
    scores free of NaN: a candidate whose similarity is above 0.3 is left
    out only when three matches are returned, each at least as similar as
    it. *)
Theorem AIService_keeps_relevant_candidates (provider : EmbeddingProvider)
  (query : string) (bugs : list Bug) :
  let scored :=
    map (AIService.score (AIService.generateEmbedding provider query)) bugs in
  absent_or_empty (AIService.generateEmbedding provider query) = false ->
  Forall not_nan scored ->
  exists r,
    AIService.searchSimilarBugs provider query (Some bugs) = Return r
    /\ forall m, In m scored -> (0.3 <? similarity m)%float = true ->
         In m r
         \/ (length r = 3
             /\ Forall (fun x => (similarity m <=? similarity x)%float = true) r).
Proof.
  intros scored Hq G. rewrite AI_search_unfold, Hq. fold scored.
  eexists. split; [reflexivity|]. intros m Hm Tm.
  destruct (sorted_scores scored G) as [Gs S].
  set (sorted := array_sort by_similarity scored) in *.
  assert (Hs : In m sorted)
    by exact (Permutation_in _ (Permutation_sym (array_sort_perm _ _ scored)) Hm).
  rewrite <- (firstn_skipn 3 sorted) in Hs. apply in_app_or in Hs as [Ht|Hr].
  - left. apply filter_In. now split.
  - right.
    assert (Hall : forall x, In x (firstn 3 sorted) ->
                     (similarity m <=? similarity x)%float = true)
      by (intros x Hx; exact (top3_outranks_rest scored G x m Hx Hr)).
    assert (Hkeep : filter (fun item => (0.3 <? similarity item)%float)
                      (firstn 3 sorted) = firstn 3 sorted).
    { apply forallb_filter_id, forallb_forall. intros x Hx.
      rewrite Forall_forall in Gs, G.
      assert (Nx : not_nan x) by (apply Gs; now apply firstn_subset in Hx).
      assert (Nm : not_nan m) by now apply G.
      specialize (Hall x Hx). rewrite float_leb_key in Hall by assumption.
      rewrite threshold_key in Tm |- * by assumption.
      apply Z.leb_le in Hall. apply Z.ltb_lt in Tm. apply Z.ltb_lt.
      unfold sim_key in *. lia. }
    rewrite Hkeep. split.
    + rewrite length_firstn. apply Nat.min_l.
      assert (Hlen : length sorted
                     = length (firstn 3 sorted) + length (skipn 3 sorted))
        by now rewrite <- length_app, firstn_skipn.
      rewrite length_firstn in Hlen.
      destruct (skipn 3 sorted) as [|z rest]; [destruct Hr|].
      cbn [length] in Hlen. lia.
    + apply Forall_forall. exact Hall.
Qed.

Lemma AIService_keeps_relevant_candidates_witness :
  exists r,
    AIService.searchSimilarBugs (always five_query) "q" (Some five_candidates)
    = Return r
    /\ forall m,
         In m (map (AIService.score
                      (AIService.generateEmbedding (always five_query) "q"))
                   five_candidates) ->
         (0.3 <? similarity m)%float = true ->
         In m r
         \/ (length r = 3
             /\ Forall (fun x => (similarity m <=? similarity x)%float = true) r).
Proof.
  apply (AIService_keeps_relevant_candidates (always five_query) "q"
           five_candidates).
  - reflexivity.
  - repeat constructor.
Defined.

(** X7.  When the candidate array is absent, [bugEmbeddings.map] throws a
    TypeError inside the [try]; both services catch it and return the empty
    list. *)
Theorem searchSimilarBugs_absent_candidates (provider : EmbeddingProvider)
  (query : string) :
  AIService.searchSimilarBugs provider query None = Return []
  /\ GCPService.searchSimilarBugs provider query None = Return [].
Proof.
  split; [|reflexivity].
  unfold AIService.searchSimilarBugs.
  destruct (absent_or_empty _); reflexivity.
Qed.

(** X8.  [AIService.searchSimilarBugs] answers an unavailable query
    embedding (the call throws, or yields an empty or missing vector) with
    the empty list, for every provider, query and candidate array. *)
Theorem AIService_search_embedding_unavailable (provider : EmbeddingProvider)
  (query : string) (bugEmbeddings : option (list Bug)) :
  (exists message, provider query = EmbedError message)
  \/ provider query = EmbedValues None
  \/ provider query = EmbedValues (Some []) ->
  AIService.searchSimilarBugs provider query bugEmbeddings = Return [].
Proof.
  intro H. apply AIService_embedding_unavailable.
  unfold AIService.generateEmbedding.
  destruct H as [[message ->]|[->| ->]]; reflexivity.
Qed.

Lemma AIService_search_embedding_unavailable_witness :
  AIService.searchSimilarBugs failing "q" (Some zero_candidates) = Return [].
Proof.
  apply AIService_search_embedding_unavailable. left. now exists "503"%string.
Defined.

(** * The bug routes *)

(** What [AIService.searchSimilarBugs] hands back to a caller. *)
Lemma AIService_search_result (provider : EmbeddingProvider) (query : string)
  (bugs : list Bug) (r : list ScoredMatch) :
  AIService.searchSimilarBugs provider query (Some bugs) = Return r ->
  length r <= 3
  /\ Forall (fun m => (0.3 <? similarity m)%float = true) r
  /\ Forall (fun m => In (bug m) bugs) r
  /\ (r <> [] -> absent_or_empty (AIService.generateEmbedding provider query)
                 = false).
Proof.
  rewrite AI_search_unfold.
  set (top := firstn 3 _). assert (Ltop : length top <= 3)
    by apply firstn_le_length.
  assert (Itop : forall m, In m top ->
            In m (array_sort by_similarity
                    (map (AIService.score
                            (AIService.generateEmbedding provider query)) bugs)))
    by (intros m; apply firstn_subset).
  clearbody top. intro E. injection E as <-.
  destruct (absent_or_empty _).
  - repeat split; try constructor. cbn; lia. congruence.
  - split; [etransitivity; [apply filter_length_le|exact Ltop]|].
    split; [|split; [|reflexivity]]; apply Forall_forall; intros m Hm;
      apply filter_In in Hm as [Hm Tm]; [exact Tm|].
    apply Itop in Hm.
    apply (Permutation_in _ (array_sort_perm _ by_similarity _)) in Hm.
    apply in_map_iff in Hm as (b & <- & Hb).
    unfold AIService.score. now destruct (absent_or_empty (embedding b)).
Qed.

Section BugRouteFacts.
Variable provider : EmbeddingProvider.
Variable NumberToString : float -> string.
Variable generate : string -> completion string.

(** X9.  When [POST /search-solution] answers with a suggested solution,
    the query was truthy, the store had answered, the response lists
    between one and three matches, each a stored candidate with a
    similarity above 0.3, and the solution is what the text model returned
    for the prompt built from the query and exactly these matches. *)
Theorem search_solution_suggested (found : completion (list Bug))
  (query : option string) (q s : string) (ms : list ScoredMatch) :
  search_solution provider NumberToString generate found query
  = Ok200 (Suggested q s ms) ->
  truthy query = true /\ query = Some q
  /\ exists allBugs, found = Return allBugs
     /\ 1 <= length ms <= 3
     /\ Forall (fun m => (0.3 <? similarity m)%float = true) ms
     /\ Forall (fun m => In (bug m) allBugs) ms
     /\ generate (AIService.prompt NumberToString q ms) = Return s.
Proof.
  unfold search_solution. destruct (truthy query) eqn:Tq; cbn [negb];
    [|discriminate].
  destruct found as [[|b allBugs]|message]; try discriminate.
  destruct (AIService.searchSimilarBugs provider (text_of query)
              (Some (b :: allBugs))) as [[|m r]|message] eqn:E;
    try discriminate.
  unfold AIService.generateBugSolution, try_catch.
  destruct (generate _) as [aiSolution|message] eqn:G; [|discriminate].
  intro H. injection H as <- <- <-.
  split; [reflexivity|]. split; [now destruct query as [[|c t]|]|].
  exists (b :: allBugs). split; [reflexivity|].
  destruct (AIService_search_result _ _ _ _ E) as (L & T & I & _).
  repeat split; try assumption. cbn [length]. lia.
Qed.

(** X10.  [POST /search-solution] answers 500 only when the store's [find]
    threw, with its message, or when the text model threw, with the message
    "Solution generation failed: ..."; a failing embedding provider never
    makes it fail. *)
Theorem search_solution_errors (found : completion (list Bug))
  (query : option string) (message : string) :
  search_solution provider NumberToString generate found query
  = ServerError500 message ->
  found = Throw message
  \/ exists prompt cause,
       generate prompt = Throw cause
       /\ message = ("Solution generation failed: " ++ cause)%string.
Proof.
  unfold search_solution. destruct (truthy query); cbn [negb];
    [|discriminate].
  destruct found as [[|b allBugs]|m0]; try discriminate.
  - destruct (AIService.searchSimilarBugs provider (text_of query)
                (Some (b :: allBugs))) as [[|m r]|m0] eqn:E;
      [discriminate| |rewrite AI_search_unfold in E; discriminate].
    unfold AIService.generateBugSolution, try_catch.
    destruct (generate _) as [aiSolution|cause] eqn:G; [discriminate|].
    intro H. injection H as <-. right. eauto.
  - intro H. injection H as <-. now left.
Qed.

(** X11.  When the embedding provider is down (the call throws, or yields
    nothing or an empty vector), [POST /search-solution] on a truthy query
    and a non-empty store answers 200 "No similar bugs found", whatever the
    text model would do. *)
Theorem search_solution_degrades (allBugs : list Bug) (query : option string) :
  truthy query = true -> allBugs <> [] ->
  absent_or_empty (AIService.generateEmbedding provider (text_of query)) = true ->
  search_solution provider NumberToString generate (Return allBugs) query
  = Ok200 (Unanswered "No similar bugs found").
Proof.
  intros Tq Hne Hq. unfold search_solution. rewrite Tq. cbn [negb].
  destruct allBugs as [|b allBugs]; [congruence|].
  now rewrite (AIService_embedding_unavailable _ _ _ Hq).
Qed.
End BugRouteFacts.

Lemma search_solution_suggested_witness :
  exists allBugs,
    Return five_candidates = Return allBugs
    /\ 1 <= length (firstn 3 (map (AIService.score (Some five_query))
                                  five_candidates)) <= 3.
Proof.
  destruct (search_solution_suggested (always five_query)
              (fun _ => "1e+21"%string)
              (fun _ => Return "Raise the pool size"%string)
              (Return five_candidates) (Some "timeout"%string)
              "timeout"%string "Raise the pool size"%string
              (firstn 3 (map (AIService.score (Some five_query)) five_candidates)))
    as (_ & _ & allBugs & E & L & _).
  - vm_compute. reflexivity.
  - exists allBugs. split; assumption.
Defined.

Lemma search_solution_errors_witness :
  (Throw "connection lost" : completion (list Bug)) = Throw "connection lost"
  \/ exists prompt cause,
       (fun _ : string => Return "unused"%string) prompt = Throw cause
       /\ "connection lost"%string
          = ("Solution generation failed: " ++ cause)%string.
Proof.
  apply (search_solution_errors failing (fun _ => "1e+21"%string)
           (fun _ => Return "unused"%string)
           (Throw "connection lost") (Some "timeout"%string)).
  reflexivity.
Defined.

Lemma search_solution_degrades_witness :
  search_solution failing (fun _ => "1e+21"%string)
    (fun _ => Throw "quota exceeded") (Return five_candidates)
    (Some "timeout"%string)
  = Ok200 (Unanswered "No similar bugs found").
Proof.
  apply search_solution_degrades; [reflexivity|discriminate|reflexivity].
Defined.

Section BugWriteFacts.
Variable provider : EmbeddingProvider.
Variable Doc : Type.
Variable save : BugDocument -> completion Doc.


Variable Rest : Type.
Variable findById : completion (option Bug).
Variable findByIdAndUpdate :
  UpdateBody Rest -> option (option (list float)) -> completion (option Doc).

(** X13.  [PUT /:id] on an id that no document has: the answer is 404 when
    the body gives all of title, description and solution, or none of
    them; when it gives some but not all, reading the missing one off the
    [null] document throws, and the answer is 500. *)
Theorem update_bug_missing_document (body : UpdateBody Rest) :
  findById = Return None ->
  (forall b e, findByIdAndUpdate b e = Return None) ->
  let given :=
    [truthy (new_title body); truthy (new_description body);
     truthy (new_solution body)] in
  (forallb (fun g => g) given = true \/ existsb (fun g => g) given = false ->
   update_bug provider Doc Rest findById findByIdAndUpdate body
   = NotFound404 "Bug not found")
  /\ (forallb (fun g => g) given = false /\ existsb (fun g => g) given = true ->
      exists field,
        update_bug provider Doc Rest findById findByIdAndUpdate body
        = ServerError500
            ("Cannot read properties of null (reading '" ++ field ++ "')")).
Proof.
  intros Hf Hu given. subst given.
  unfold update_bug, regenerate_embedding, new_or_stored.
  rewrite Hf. cbn [forallb existsb].
  destruct (truthy (new_title body)) eqn:Tt,
    (truthy (new_description body)) eqn:Td,
    (truthy (new_solution body)) eqn:Ts;
    cbn [bind orb andb]; rewrite ?Hu; split;
    try (intros [H|H]; discriminate H);
    try (intros [H1 H2]; discriminate);
    try (intros _; reflexivity).
  - intros _. now exists "solution"%string.
  - intros _. now exists "description"%string.
  - intros _. now exists "description"%string.
  - intros _. now exists "title"%string.
  - intros _. now exists "title"%string.
  - intros _. now exists "title"%string.
Qed.

(** X14.  [PUT /:id] on a stored document, with the provider down and one
    of title, description, solution given: the update sent to the store
    sets [embedding] to the empty array. *)
Theorem update_bug_provider_down (body : UpdateBody Rest) (stored : Bug) :
  findById = Return (Some stored) ->
  truthy (new_title body) || truthy (new_description body)
  || truthy (new_solution body) = true ->
  (forall text, exists message, provider text = EmbedError message) ->
  update_bug provider Doc Rest findById findByIdAndUpdate body
  = match findByIdAndUpdate body (Some (Some [])) with
    | Throw message => ServerError500 message
    | Return None => NotFound404 "Bug not found"
    | Return (Some doc) => Ok200 doc
    end.
Proof.
  intros Hf Hg Down.
  unfold update_bug, regenerate_embedding, new_or_stored.
  rewrite Hg, Hf. cbn [bind].
  destruct (truthy (new_title body)), (truthy (new_description body)),
    (truthy (new_solution body)); cbn [bind];
    unfold AIService.generateEmbedding;
    match goal with
    | |- context [provider ?text] => destruct (Down text) as [message ->]
    end; reflexivity.
Qed.
End BugWriteFacts.


Lemma update_bug_missing_document_witness :
  exists field,
    update_bug failing BugDocument unit (Return None) (fun _ _ => Return None)
      {| new_title := Some "Timeout"%string; new_description := None;
         new_solution := None; other_keys := tt |}
    = ServerError500
        ("Cannot read properties of null (reading '" ++ field ++ "')").
Proof.
  apply (update_bug_missing_document failing BugDocument unit (Return None)
           (fun _ _ => Return None)
           {| new_title := Some "Timeout"%string; new_description := None;
              new_solution := None; other_keys := tt |}
           eq_refl (fun _ _ => eq_refl)).
  split; reflexivity.
Defined.

Lemma update_bug_provider_down_witness :
  update_bug failing (option (list float)) unit
    (Return (Some (sample_bug "A" (Some [1; 0]%float))))
    (fun _ e => Return (option_map (fun x => x) e))
    {| new_title := Some "Timeout"%string; new_description := None;
       new_solution := None; other_keys := tt |}
  = Ok200 (Some []).
Proof.
  apply (update_bug_provider_down failing (option (list float)) unit
           (Return (Some (sample_bug "A" (Some [1; 0]%float))))
           (fun _ e => Return (option_map (fun x => x) e))
           {| new_title := Some "Timeout"%string; new_description := None;
              new_solution := None; other_keys := tt |}
           (sample_bug "A" (Some [1; 0]%float)) eq_refl eq_refl).
  intro text. now exists "503"%string.
Defined.

(** * Sets and maps of strings *)

Lemma existsb_eqb_In (x : string) (s : list string) :
  existsb (String.eqb x) s = true <-> In x s.
Proof.
  rewrite existsb_exists. split.
  - intros [y [Hy E]]. apply String.eqb_eq in E. now subst.
  - intro Hx. exists x. split; [exact Hx|apply String.eqb_refl].
Qed.

Lemma set_add_In (s : list string) (x t : string) :
  In t (set_add s x) <-> In t s \/ t = x.
Proof.
  unfold set_add. destruct (existsb (String.eqb x) s) eqn:E.
  - apply existsb_eqb_In in E. split; [now left|].
    intros [Ht| ->]; assumption.
  - rewrite in_app_iff. cbn [In]. intuition congruence.
Qed.

Lemma set_add_NoDup (s : list string) (x : string) :
  NoDup s -> NoDup (set_add s x).
Proof.
  intro Hs. unfold set_add. destruct (existsb (String.eqb x) s) eqn:E;
    [exact Hs|].
  assert (Hx : ~ In x s).
  { intro Hx. apply existsb_eqb_In in Hx. congruence. }
  apply NoDup_app; [exact Hs|repeat constructor; intros []|].
  intros y Hy [<-|[]]. exact (Hx Hy).
Qed.

Lemma fold_set_add_In (l s : list string) (t : string) :
  In t (fold_left set_add l s) <-> In t s \/ In t l.
Proof.
  revert s. induction l as [|x l IH]; intro s; cbn [fold_left In].
  - tauto.
  - rewrite IH, set_add_In. intuition congruence.
Qed.

Lemma fold_set_add_NoDup (l s : list string) :
  NoDup s -> NoDup (fold_left set_add l s).
Proof.
  revert s. induction l as [|x l IH]; intros s Hs; cbn [fold_left];
    [exact Hs|].
  apply IH, set_add_NoDup, Hs.
Qed.

Lemma fold_set_add_initial (l s : list string) :
  initial s (fold_left set_add l s).
Proof.
  revert s. induction l as [|x l IH]; intro s; cbn [fold_left].
  - exists []. now rewrite app_nil_r.
  - destruct (IH (set_add s x)) as [rest E]. rewrite E.
    unfold set_add. destruct (existsb (String.eqb x) s).
    + now exists rest.
    + exists ([x] ++ rest). now rewrite app_assoc.
Qed.

Lemma fold_set_add_fresh (l s : list string) :
  NoDup (s ++ l) -> fold_left set_add l s = s ++ l.
Proof.
  revert s. induction l as [|x l IH]; intros s Hs; cbn [fold_left].
  - now rewrite app_nil_r.
  - assert (Hx : existsb (String.eqb x) s = false).
    { destruct (existsb (String.eqb x) s) eqn:E; [|reflexivity].
      apply existsb_eqb_In in E. apply NoDup_remove_2 in Hs.
      exfalso. apply Hs, in_or_app. now left. }
    unfold set_add at 2. rewrite Hx.
    change (x :: l) with ([x] ++ l). rewrite app_assoc.
    apply IH. now rewrite <- app_assoc.
Qed.

Lemma map_get_set_same (m : list (string * nat)) (k : string) (v : nat) :
  map_get (map_set m k v) k = Some v.
Proof.
  induction m as [|[k' v'] m IH]; cbn [map_set].
  - unfold map_get. cbn. now rewrite String.eqb_refl.
  - destruct (String.eqb k' k) eqn:E.
    + unfold map_get. cbn. now rewrite String.eqb_refl.
    + unfold map_get in *. cbn. now rewrite E.
Qed.

Lemma map_get_set_other (m : list (string * nat)) (k t : string) (v : nat) :
  k <> t -> map_get (map_set m k v) t = map_get m t.
Proof.
  intro Hk. apply String.eqb_neq in Hk.
  induction m as [|[k' v'] m IH]; cbn [map_set].
  - unfold map_get. cbn. now rewrite Hk.
  - destruct (String.eqb k' k) eqn:E.
    + apply String.eqb_eq in E. subst k'. unfold map_get. cbn.
      now rewrite Hk.
    + unfold map_get in *. cbn. destruct (String.eqb k' t); [reflexivity|].
      exact IH.
Qed.

Lemma map_set_keys (m : list (string * nat)) (k : string) (v : nat) :
  map fst (map_set m k v) = set_add (map fst m) k.
Proof.
  induction m as [|[k' v'] m IH]; cbn [map_set map fst]; [reflexivity|].
  unfold set_add. cbn [existsb]. rewrite (String.eqb_sym k k').
  destruct (String.eqb k' k) eqn:E.
  - apply String.eqb_eq in E. now subst.
  - cbn [orb map fst]. rewrite IH. unfold set_add.
    now destruct (existsb (String.eqb k) (map fst m)).
Qed.

(** What a map of counts holds when it has counted the list [l]. *)
Lemma count_one_counts (m : list (string * nat)) (l : list string) (x : string) :
  (forall t, map_get m t
             = if count_occ string_dec l t =? 0 then None
               else Some (count_occ string_dec l t)) ->
  forall t, map_get (count_one m x) t
            = if count_occ string_dec (l ++ [x]) t =? 0 then None
              else Some (count_occ string_dec (l ++ [x]) t).
Proof.
  intros Hm t. unfold count_one. rewrite count_occ_app. cbn [count_occ].
  destruct (string_dec x t) as [->|Hx].
  - rewrite map_get_set_same, Hm.
    destruct (Nat.eqb_spec (count_occ string_dec l t) 0) as [E|E].
    + rewrite E. reflexivity.
    + destruct (Nat.eqb_spec (count_occ string_dec l t + 1) 0); [lia|].
      reflexivity.
  - rewrite (map_get_set_other m x t _ Hx), Hm, Nat.add_0_r. reflexivity.
Qed.

Lemma fold_count_one_counts (xs : list string) (m : list (string * nat))
  (l : list string) :
  (forall t, map_get m t
             = if count_occ string_dec l t =? 0 then None
               else Some (count_occ string_dec l t)) ->
  forall t, map_get (fold_left count_one xs m) t
            = if count_occ string_dec (l ++ xs) t =? 0 then None
              else Some (count_occ string_dec (l ++ xs) t).
Proof.
  revert m l. induction xs as [|x xs IH]; intros m l Hm t; cbn [fold_left].
  - rewrite app_nil_r. apply Hm.
  - change (x :: xs) with ([x] ++ xs). rewrite app_assoc.
    apply IH. now apply count_one_counts.
Qed.

Lemma fold_count_one_keys (xs : list string) (m : list (string * nat)) :
  map fst (fold_left count_one xs m) = fold_left set_add xs (map fst m).
Proof.
  revert m. induction xs as [|x xs IH]; intro m; cbn [fold_left];
    [reflexivity|].
  rewrite IH. unfold count_one. now rewrite map_set_keys.
Qed.

Lemma tally_get_from (labels : list (list string)) (m : list (string * nat))
  (l : list string) :
  (forall t, map_get m t
             = if count_occ string_dec l t =? 0 then None
               else Some (count_occ string_dec l t)) ->
  forall t,
    map_get (fold_left (fun m l => fold_left count_one l m) labels m) t
    = if count_occ string_dec (l ++ concat labels) t =? 0 then None
      else Some (count_occ string_dec (l ++ concat labels) t).
Proof.
  revert m l. induction labels as [|xs labels IH]; intros m l Hm t;
    cbn [fold_left concat].
  - rewrite app_nil_r. apply Hm.
  - rewrite app_assoc. apply IH. now apply fold_count_one_counts.
Qed.

Lemma tally_get (labels : list (list string)) (t : string) :
  map_get (tally labels) t
  = if count_occ string_dec (concat labels) t =? 0 then None
    else Some (count_occ string_dec (concat labels) t).
Proof.
  exact (tally_get_from labels [] [] (fun _ => eq_refl) t).
Qed.

Lemma tally_keys_from (labels : list (list string)) (m : list (string * nat)) :
  map fst (fold_left (fun m l => fold_left count_one l m) labels m)
  = fold_left set_add (concat labels) (map fst m).
Proof.
  revert m. induction labels as [|xs labels IH]; intro m;
    cbn [fold_left concat]; [reflexivity|].
  now rewrite IH, fold_count_one_keys, fold_left_app.
Qed.

Lemma tally_keys (labels : list (list string)) :
  map fst (tally labels) = unique (concat labels).
Proof. exact (tally_keys_from labels []). Qed.

Lemma map_get_NoDup (m : list (string * nat)) (e : string * nat) :
  NoDup (map fst m) -> In e m -> map_get m (fst e) = Some (snd e).
Proof.
  induction m as [|[k v] m IH]; intros Hm He; [destruct He|].
  cbn [map fst] in Hm. apply NoDup_cons_iff in Hm as [Hk Hm].
  unfold map_get. cbn [find fst].
  destruct He as [<-|He].
  - cbn [fst snd]. now rewrite String.eqb_refl.
  - destruct (String.eqb_spec k (fst e)) as [E|E].
    + exfalso. apply Hk. rewrite E. now apply in_map.
    + apply IH; assumption.
Qed.

(** Every entry of the map carries the number of occurrences of its key. *)
Lemma tally_entries (labels : list (list string)) :
  Forall (fun e => snd e = count_occ string_dec (concat labels) (fst e)
                   /\ 1 <= snd e)
         (tally labels).
Proof.
  apply Forall_forall. intros e He.
  assert (Hk : NoDup (map fst (tally labels))).
  { rewrite tally_keys. apply fold_set_add_NoDup. constructor. }
  pose proof (map_get_NoDup _ e Hk He) as Hg.
  rewrite tally_get in Hg.
  destruct (Nat.eqb_spec (count_occ string_dec (concat labels) (fst e)) 0);
    [discriminate|].
  injection Hg as Hg. split; [now symmetry|lia].
Qed.

(** * Sorting by an integer comparator *)

Section SortZFacts.
Variable A : Type.
Variable comparefn : A -> A -> Z.

Lemma sort_insert_Z_perm (x : A) (l : list A) :
  Permutation (sort_insert_Z comparefn x l) (x :: l).
Proof.
  induction l as [|y l IH]; cbn [sort_insert_Z]; [reflexivity|].
  destruct (0 <? comparefn x y)%Z; [|reflexivity].
  rewrite IH. apply perm_swap.
Qed.

Lemma array_sort_Z_perm (l : list A) :
  Permutation (array_sort_Z comparefn l) l.
Proof.
  induction l as [|x l IH]; cbn [array_sort_Z fold_right]; [reflexivity|].
  fold (array_sort_Z comparefn l).
  rewrite sort_insert_Z_perm. now constructor.
Qed.

Variable key : A -> Z.
Hypothesis comparefn_key : forall x y,
  (0 <? comparefn x y)%Z = (key x <? key y)%Z.

Lemma sort_insert_Z_descending (x : A) (l : list A) :
  descending key l -> descending key (sort_insert_Z comparefn x l).
Proof.
  intro Sl. induction Sl as [|y l Sl IH Hy]; cbn [sort_insert_Z].
  - repeat constructor.
  - rewrite (comparefn_key x y).
    destruct (Z.ltb_spec (key x) (key y)) as [Hlt|Hge].
    + constructor; [exact IH|].
      rewrite (sort_insert_Z_perm x l). constructor; [lia|exact Hy].
    + constructor; [constructor; assumption|].
      constructor; [exact Hge|].
      revert Hy. apply Forall_impl. intros z Hz. lia.
Qed.

Lemma array_sort_Z_descending (l : list A) :
  descending key (array_sort_Z comparefn l).
Proof.
  induction l as [|x l IH]; cbn [array_sort_Z fold_right].
  - constructor.
  - fold (array_sort_Z comparefn l). now apply sort_insert_Z_descending.
Qed.

(** Stability: the elements of one key keep their order. *)
Lemma sort_insert_Z_stable (k : Z) (x : A) (l : list A) :
  descending key l ->
  filter (fun y => (key y =? k)%Z) (sort_insert_Z comparefn x l)
  = filter (fun y => (key y =? k)%Z) (x :: l).
Proof.
  intro Sl. induction Sl as [|y l Sl IH Hy]; cbn [sort_insert_Z];
    [reflexivity|].
  rewrite (comparefn_key x y).
  destruct (Z.ltb_spec (key x) (key y)) as [Hlt|Hge]; [|reflexivity].
  cbn [filter] in *. rewrite IH.
  destruct (Z.eqb_spec (key x) k) as [Ex|Ex], (Z.eqb_spec (key y) k) as [Ey|Ey];
    try reflexivity.
  lia.
Qed.

Lemma array_sort_Z_stable (k : Z) (l : list A) :
  filter (fun y => (key y =? k)%Z) (array_sort_Z comparefn l)
  = filter (fun y => (key y =? k)%Z) l.
Proof.
  induction l as [|x l IH]; cbn [array_sort_Z fold_right]; [reflexivity|].
  fold (array_sort_Z comparefn l).
  rewrite sort_insert_Z_stable by apply array_sort_Z_descending.
  cbn [filter]. now rewrite IH.
Qed.
End SortZFacts.

Lemma by_count_key (a b : string * nat) :
  (0 <? by_count a b)%Z = (Z.of_nat (snd a) <? Z.of_nat (snd b))%Z.
Proof.
  unfold by_count.
  destruct (Z.ltb_spec 0 (Z.of_nat (snd b) - Z.of_nat (snd a))),
           (Z.ltb_spec (Z.of_nat (snd a)) (Z.of_nat (snd b)));
    try reflexivity; lia.
Qed.

(** The sorted entries of a map of counts: one entry per distinct label,
    with its number of occurrences, by decreasing count, labels of one
    count in the order in which they were first met. *)
Lemma sorted_tally (labels : list (list string)) :
  let all := concat labels in
  let sorted := array_sort_Z by_count (tally labels) in
  Permutation (map fst sorted) (unique all)
  /\ Forall (fun e => snd e = count_occ string_dec all (fst e) /\ 1 <= snd e)
            sorted
  /\ descending (fun e => Z.of_nat (snd e)) sorted
  /\ forall c : nat,
       map fst (filter (fun e => snd e =? c) sorted)
       = filter (fun t => count_occ string_dec all t =? c) (unique all).
Proof.
  intros all sorted.
  pose proof (array_sort_Z_perm _ by_count (tally labels)) as P.
  fold sorted in P.
  split; [|split; [|split]].
  - unfold all. rewrite <- tally_keys. now apply Permutation_map.
  - apply (Permutation_Forall (Permutation_sym P)), tally_entries.
  - apply (array_sort_Z_descending _ by_count _ by_count_key).
  - intro c.
    pose proof (array_sort_Z_stable _ by_count (fun e => Z.of_nat (snd e))
                  by_count_key (Z.of_nat c) (tally labels)) as S.
    fold sorted in S.
    assert (F : forall l : list (string * nat),
              filter (fun e => snd e =? c) l
              = filter (fun y => (Z.of_nat (snd y) =? Z.of_nat c)%Z) l).
    { intro l. apply filter_ext. intro e.
      destruct (Nat.eqb_spec (snd e) c), (Z.eqb_spec (Z.of_nat (snd e)) (Z.of_nat c));
        try reflexivity; lia. }
    rewrite (F sorted), S, <- (F (tally labels)).
    unfold all. rewrite <- tally_keys.
    pose proof (tally_entries labels) as E. clear P S. clearbody sorted.
    revert E. generalize (tally labels) as m.
    induction 1 as [|e l [He _] _ IH]; [reflexivity|].
    cbn [filter map]. rewrite <- He.
    destruct (snd e =? c); cbn [map]; now rewrite IH.
Qed.

(** * The analytics routes *)

Lemma NoDup_firstn {A : Type} (n : nat) (l : list A) :
  NoDup l -> NoDup (firstn n l).
Proof.
  intro Hl. rewrite <- (firstn_skipn n l) in Hl.
  exact (NoDup_app_remove_r _ _ Hl).
Qed.

Lemma unique_NoDup (l : list string) : NoDup (unique l).
Proof. apply fold_set_add_NoDup. constructor. Qed.

Lemma unique_In (l : list string) (t : string) : In t (unique l) <-> In t l.
Proof. unfold unique. rewrite fold_set_add_In. cbn [In]. tauto. Qed.

(** X15.  [GET /analytics/technologies] (routes/workEntries.js) lists every
    technology that some entry mentions exactly once, with the number of
    times it is mentioned over all the entries, most mentioned first;
    technologies mentioned equally often stand in the order in which they
    were first met, and [totalTechnologies] is the number of distinct
    technologies. *)
Theorem technologies_summary_counts (entries : list WorkEntry) :
  let all := flat_map technologies entries in
  let summary := technologies_summary entries in
  NoDup (map fst summary)
  /\ (forall t, In t (map fst summary)
                <-> exists e, In e entries /\ In t (technologies e))
  /\ Forall (fun e => snd e = count_occ string_dec all (fst e) /\ 1 <= snd e)
            summary
  /\ descending (fun e => Z.of_nat (snd e)) summary
  /\ (forall c : nat,
        map fst (filter (fun e => snd e =? c) summary)
        = filter (fun t => count_occ string_dec all t =? c) (unique all))
  /\ length summary = length (unique all).
Proof.
  intros all summary.
  destruct (sorted_tally (map technologies entries)) as [P [C [D T]]].
  fold (technologies_summary entries) in P, C, D, T. fold summary in P, C, D, T.
  rewrite <- flat_map_concat_map in P, C, T. fold all in P, C, T.
  split; [|split; [|split; [|split; [|split]]]].
  - apply (Permutation_NoDup (Permutation_sym P)), unique_NoDup.
  - intro t. transitivity (In t (unique all)).
    { split; apply Permutation_in; [exact P|exact (Permutation_sym P)]. }
    rewrite unique_In. apply in_flat_map.
  - exact C.
  - exact D.
  - exact T.
  - rewrite <- (Permutation_length P). symmetry. apply length_map.
Qed.

(** X16.  [commonTags] of [GET /analytics/stats] (routes/bugs.js) holds at
    most ten tags, each once and with the number of times it occurs over
    all the bugs, most frequent first; it holds every tag when there are at
    most ten distinct ones, and a tag that is left out occurs no more often
    than any tag that is listed. *)
Theorem commonTags_most_frequent (bugs : list BugDocument) :
  let all := flat_map (fun b => tags (doc_bug b)) bugs in
  let common := commonTags bugs in
  length common = Nat.min 10 (length (unique all))
  /\ NoDup (map fst common)
  /\ Forall (fun e => In (fst e) all
                      /\ snd e = count_occ string_dec all (fst e)) common
  /\ descending (fun e => Z.of_nat (snd e)) common
  /\ forall t, In t all -> ~ In t (map fst common) ->
       length common = 10
       /\ Forall (fun e => count_occ string_dec all t <= snd e) common.
Proof.
  intros all common.
  destruct (sorted_tally (map (fun b => tags (doc_bug b)) bugs))
    as [P [C [D _]]].
  rewrite <- flat_map_concat_map in P, C. fold all in P, C.
  set (sorted := array_sort_Z by_count
                   (tally (map (fun b => tags (doc_bug b)) bugs))) in *.
  assert (Ec : common = firstn 10 sorted) by reflexivity.
  assert (Hl : length sorted = length (unique all)).
  { rewrite <- (Permutation_length P). symmetry. apply length_map. }
  assert (Hk : NoDup (map fst sorted))
    by (apply (Permutation_NoDup (Permutation_sym P)), unique_NoDup).
  clearbody sorted common. subst common.
  split; [|split; [|split; [|split]]].
  - rewrite length_firstn, Hl. reflexivity.
  - rewrite <- firstn_map. now apply NoDup_firstn.
  - apply Forall_forall. intros e He. apply firstn_subset in He.
    rewrite Forall_forall in C. destruct (C e He) as [Hc H1].
    split; [|exact Hc].
    destruct (count_occ_In string_dec all (fst e)) as [_ Hin].
    apply Hin. lia.
  - apply StronglySorted_firstn, D.
  - intros t Ht Hn.
    assert (Hs : In t (map fst sorted)).
    { apply (Permutation_in t (Permutation_sym P)). now apply unique_In. }
    rewrite <- (firstn_skipn 10 sorted) in Hs.
    rewrite map_app, in_app_iff in Hs. destruct Hs as [Hs|Hs]; [contradiction|].
    apply in_map_iff in Hs as [e [He Hin]].
    assert (Hlen : 10 < length sorted).
    { destruct (Nat.lt_ge_cases 10 (length sorted)) as [Hlt|Hge]; [exact Hlt|].
      rewrite skipn_all2 in Hin by exact Hge. destruct Hin. }
    split; [rewrite length_firstn; lia|].
    apply Forall_forall. intros e' He'.
    rewrite <- (firstn_skipn 10 sorted) in D.
    pose proof (StronglySorted_app_cross _ _ _ D e' e He' Hin) as Hle.
    cbv beta in Hle.
    assert (Hc : snd e = count_occ string_dec all (fst e)).
    { rewrite Forall_forall in C. apply C.
      rewrite <- (firstn_skipn 10 sorted). apply in_or_app. now right. }
    rewrite <- He, <- Hc. lia.
Qed.

(** X17.  In [bySeverity] of [GET /analytics/stats] (routes/bugs.js) every
    bug is counted at most once: the four counts and the number of bugs
    whose severity is none of Low, Medium, High and Critical add up to
    [total]. *)
Theorem bySeverity_partition (bugs : list BugDocument) :
  count_severity "Low" bugs + count_severity "Medium" bugs
  + count_severity "High" bugs + count_severity "Critical" bugs
  + length (filter
              (fun b =>
                 negb (existsb (String.eqb (doc_severity b))
                               ["Low"; "Medium"; "High"; "Critical"]%string))
              bugs)
  = length bugs.
Proof.
  unfold count_severity.
  induction bugs as [|b bugs IH]; [reflexivity|].
  cbn [filter existsb length] in *.
  destruct (String.eqb (doc_severity b) "Low") eqn:E1,
           (String.eqb (doc_severity b) "Medium") eqn:E2,
           (String.eqb (doc_severity b) "High") eqn:E3,
           (String.eqb (doc_severity b) "Critical") eqn:E4;
    cbn [orb negb length]; try lia; exfalso;
    repeat match goal with
           | H : String.eqb _ _ = true |- _ => apply String.eqb_eq in H
           end;
    congruence.
Qed.

(** * The aggregates of the report *)

Lemma binary_round_aux_nonzero (sx s : bool) (m : positive) (e : Z)
  (l : location) :
  (-1074 <= e)%Z ->
  binary_round_aux prec emax sx (Zpos m) e l <> S754_zero s.
Proof.
  intro He. unfold binary_round_aux.
  pose proof (shr_fexp_pos m e l He) as [H1 H2].
  destruct (shr_fexp prec emax (Zpos m) e l) as [mrs' e'].
  cbn [fst snd] in H1, H2.
  pose proof (round_nearest_even_ge (shr_m mrs') (loc_of_shr_record mrs')) as Hr.
  destruct (round_nearest_even (shr_m mrs') (loc_of_shr_record mrs'))
    as [|m2|m2]; try lia.
  pose proof (shr_fexp_pos m2 e' loc_Exact H2) as [H3 _].
  destruct (shr_fexp prec emax (Zpos m2) e' loc_Exact) as [mrs'' e''].
  cbn [fst] in H3.
  destruct (shr_m mrs'') as [|m3|m3]; try lia.
  destruct (e'' <=? emax - prec)%Z; discriminate.
Qed.

Lemma binary_round_nonzero (sx s : bool) (m : positive) (e : Z) :
  (-1074 <= e)%Z -> binary_round prec emax sx m e <> S754_zero s.
Proof.
  intro He. unfold binary_round, shl_align.
  set (e' := fexp prec emax (Zpos (digits2_pos m) + e)).
  assert (He' : (-1074 <= e')%Z)
    by (unfold e', fexp, SpecFloat.emin, prec, emax; lia).
  destruct (e' - e)%Z; apply binary_round_aux_nonzero; assumption.
Qed.

(** A sum is [-0] only when both of its terms are. *)
Lemma SFadd_not_neg_zero (x y : spec_float) :
  valid_binary x = true -> valid_binary y = true ->
  y <> S754_zero true -> SFadd prec emax x y <> S754_zero true.
Proof.
  intros Vx Vy Hy.
  destruct x as [sx|sx| |sx mx ex], y as [sy|sy| |sy my ey]; cbn [SFadd];
    try (intro; discriminate); try assumption.
  - destruct sy; [contradiction|]. destruct sx; discriminate.
  - destruct sx, sy; discriminate.
  - cbn [valid_binary] in Vx, Vy.
    apply bounded_inv in Vx as (Hx & _), Vy as (Hy' & _).
    assert (He : (-1074 <= Z.min ex ey)%Z) by lia.
    destruct (cond_Zopp sx _ + cond_Zopp sy _)%Z; cbn [binary_normalize];
      [discriminate| |]; now apply binary_round_nonzero.
Qed.

Lemma float_add_not_neg_zero (x y : float) :
  Prim2SF y <> S754_zero true -> Prim2SF (x + y) <> S754_zero true.
Proof.
  intro Hy. rewrite add_spec.
  apply SFadd_not_neg_zero; [apply Prim2SF_valid|apply Prim2SF_valid|exact Hy].
Qed.

Lemma float_add_zero_r (x : float) :
  Prim2SF x <> S754_zero true -> (x + 0)%float = x.
Proof.
  intro Hx. apply Prim2SF_inj. rewrite add_spec. unfold SF64add.
  change (Prim2SF 0) with (S754_zero false).
  destruct (Prim2SF x) as [[|]| | |]; cbn [SFadd Bool.eqb]; try reflexivity.
  now contradiction Hx.
Qed.

Lemma number_or_zero_not_neg_zero (x : option float) :
  Prim2SF (number_or_zero x) <> S754_zero true.
Proof.
  destruct x as [v|]; cbn [number_or_zero]; [|discriminate].
  destruct (is_zero v) eqn:Z; cbn [orb]; [discriminate|].
  destruct (is_nan v); [discriminate|].
  intro E. assert (is_zero v = true) by (apply is_zero_SF; eauto).
  congruence.
Qed.

Section Totals.
Variable field : WorkEntry -> option float.

Lemma total_not_neg_zero (entries : list WorkEntry) (start : float) :
  Prim2SF start <> S754_zero true ->
  Prim2SF (fold_left (fun sum e => (sum + number_or_zero (field e))%float)
                     entries start)
  <> S754_zero true.
Proof.
  revert start. induction entries as [|e entries IH]; intros start Hs;
    cbn [fold_left]; [exact Hs|].
  apply IH, float_add_not_neg_zero, number_or_zero_not_neg_zero.
Qed.

Lemma total_skips_falsy (before after : list WorkEntry) (e : WorkEntry) :
  falsy_number (field e) = true ->
  fold_left (fun sum e => (sum + number_or_zero (field e))%float)
            (before ++ e :: after) 0%float
  = fold_left (fun sum e => (sum + number_or_zero (field e))%float)
              (before ++ after) 0%float.
Proof.
  intro F. rewrite !fold_left_app. cbn [fold_left]. f_equal.
  assert (E : number_or_zero (field e) = 0%float).
  { unfold number_or_zero, falsy_number in *.
    destruct (field e) as [v|]; [now rewrite F|reflexivity]. }
  rewrite E. apply float_add_zero_r, total_not_neg_zero. discriminate.
Qed.
End Totals.

(** X18.  The totals of [generateReport] (both services) and of the
    statistics route skip the entries whose value is missing, [0], [-0] or
    NaN: such an entry leaves [totalProblems], respectively [totalTasks] and
    [totalHoursSpent], exactly as it is without the entry, wherever it
    stands in the list.  A NaN field does not make a total NaN. *)
Theorem totals_skip_falsy_values (before after : list WorkEntry)
  (e : WorkEntry) :
  (falsy_number (problemsSolved e) = true ->
   totalProblems (before ++ e :: after) = totalProblems (before ++ after))
  /\ (falsy_number (tasks_of e) = true ->
      totalTasks (before ++ e :: after) = totalTasks (before ++ after))
  /\ (falsy_number (hours_of e) = true ->
      totalHoursSpent (before ++ e :: after)
      = totalHoursSpent (before ++ after)).
Proof.
  split; [|split]; intro F.
  - exact (total_skips_falsy problemsSolved before after e F).
  - exact (total_skips_falsy tasks_of before after e F).
  - exact (total_skips_falsy hours_of before after e F).
Qed.

Lemma totals_skip_falsy_values_witness :
  totalProblems
    ([ {| technologies := ["React"]%string; problemsSolved := Some 2%float;
          productivity := None |} ]
     ++ {| technologies := []; problemsSolved := Some nan;
           productivity := None |}
     :: [ {| technologies := []; problemsSolved := Some 3%float;
             productivity := None |} ])
  = totalProblems
      ([ {| technologies := ["React"]%string; problemsSolved := Some 2%float;
            productivity := None |} ]
       ++ [ {| technologies := []; problemsSolved := Some 3%float;
               productivity := None |} ]).
Proof.
  apply (totals_skip_falsy_values
           [ {| technologies := ["React"]%string; problemsSolved := Some 2%float;
                productivity := None |} ]
           [ {| technologies := []; problemsSolved := Some 3%float;
                productivity := None |} ]
           {| technologies := []; problemsSolved := Some nan;
              productivity := None |}).
  reflexivity.
Defined.

(** X19.  [allTechs] of [generateReport] (both services) lists every
    technology of the entries exactly once, the technologies of earlier
    entries first: it begins with the list for any initial part of the
    entries, and it is the plain concatenation when no technology is
    repeated. *)
Theorem allTechs_distinct (earlier later : list WorkEntry) :
  NoDup (allTechs (earlier ++ later))
  /\ (forall t, In t (allTechs (earlier ++ later))
                <-> exists e, In e (earlier ++ later) /\ In t (technologies e))
  /\ initial (allTechs earlier) (allTechs (earlier ++ later))
  /\ (NoDup (flat_map technologies (earlier ++ later)) ->
      allTechs (earlier ++ later) = flat_map technologies (earlier ++ later)).
Proof.
  unfold allTechs. split; [|split; [|split]].
  - apply unique_NoDup.
  - intro t. rewrite unique_In. apply in_flat_map.
  - rewrite flat_map_app. unfold unique. rewrite fold_left_app.
    apply fold_set_add_initial.
  - intro Hn. exact (fold_set_add_fresh _ [] Hn).
Qed.

Lemma allTechs_distinct_witness :
  allTechs
    ([ {| technologies := ["React"; "Node"]%string; problemsSolved := None;
          productivity := None |} ]
     ++ [ {| technologies := ["MongoDB"]%string; problemsSolved := None;
             productivity := None |} ])
  = ["React"; "Node"; "MongoDB"]%string.
Proof.
  apply (allTechs_distinct
           [ {| technologies := ["React"; "Node"]%string; problemsSolved := None;
                productivity := None |} ]
           [ {| technologies := ["MongoDB"]%string; problemsSolved := None;
                productivity := None |} ]).
  cbn. repeat constructor; cbn; intuition discriminate.
Defined.

Lemma count_complexity_step (dist : Distribution) (e : WorkEntry) :
  Easy (count_complexity dist e)
  = Easy dist + (if has_complexity "Easy" e then 1 else 0)
  /\ Medium (count_complexity dist e)
     = Medium dist + (if has_complexity "Medium" e then 1 else 0)
  /\ Hard (count_complexity dist e)
     = Hard dist + (if has_complexity "Hard" e then 1 else 0).
Proof.
  unfold count_complexity, has_complexity.
  destruct (productivity e) as [[h t [c|]]|]; cbn [complexity truthy text_of];
    try lia.
  destruct c as [|a c]; [cbn [String.eqb]; lia|]. cbn [truthy text_of].
  destruct (String.eqb (String a c) "Easy") eqn:E1,
           (String.eqb (String a c) "Medium") eqn:E2,
           (String.eqb (String a c) "Hard") eqn:E3;
    cbn [Easy Medium Hard]; try lia; exfalso;
    repeat match goal with
           | H : String.eqb _ _ = true |- _ => apply String.eqb_eq in H
           end;
    match goal with
    | H1 : ?x = _, H2 : ?x = _ |- _ => rewrite H1 in H2; discriminate H2
    end.
Qed.

Lemma fold_count_complexity (entries : list WorkEntry) (dist : Distribution) :
  Easy (fold_left count_complexity entries dist)
  = Easy dist + length (filter (has_complexity "Easy") entries)
  /\ Medium (fold_left count_complexity entries dist)
     = Medium dist + length (filter (has_complexity "Medium") entries)
  /\ Hard (fold_left count_complexity entries dist)
     = Hard dist + length (filter (has_complexity "Hard") entries).
Proof.
  revert dist.
  induction entries as [|e entries IH]; intro dist; cbn [fold_left filter length].
  - lia.
  - destruct (IH (count_complexity dist e)) as [IE [IM IHd]].
    destruct (count_complexity_step dist e) as [SE [SM SH]].
    rewrite IE, IM, IHd, SE, SM, SH.
    destruct (has_complexity "Easy" e), (has_complexity "Medium" e),
             (has_complexity "Hard" e); cbn [length]; lia.
Qed.

(** X20.  [complexityDistribution] of [GET /stats] (routes/reports.js)
    counts under [Easy], [Medium] and [Hard] exactly the entries whose
    [productivity.complexity] is that word; an entry with another value, no
    value or no [productivity] is counted nowhere, so the three counts add
    up to at most [totalEntries]. *)
Theorem complexityDistribution_counts (entries : list WorkEntry) :
  Easy (complexityDistribution entries)
  = length (filter (has_complexity "Easy") entries)
  /\ Medium (complexityDistribution entries)
     = length (filter (has_complexity "Medium") entries)
  /\ Hard (complexityDistribution entries)
     = length (filter (has_complexity "Hard") entries)
  /\ Easy (complexityDistribution entries)
     + Medium (complexityDistribution entries)
     + Hard (complexityDistribution entries) <= length entries.
Proof.
  unfold complexityDistribution.
  destruct (fold_count_complexity entries {| Easy := 0; Medium := 0; Hard := 0 |})
    as [E [M Hd]].
  cbn [Easy Medium Hard Nat.add] in E, M, Hd.
  rewrite E, M, Hd. repeat split.
  clear E M Hd. induction entries as [|e entries IH]; cbn [filter length]; [lia|].
  destruct (has_complexity "Easy" e) eqn:E1,
           (has_complexity "Medium" e) eqn:E2,
           (has_complexity "Hard" e) eqn:E3; cbn [length]; try lia; exfalso;
    unfold has_complexity in E1, E2, E3;
    destruct (productivity e) as [[h t [c|]]|]; cbn [complexity] in *;
    try discriminate;
    repeat match goal with
           | H : String.eqb _ _ = true |- _ => apply String.eqb_eq in H
           end;
    match goal with
    | H1 : ?x = _, H2 : ?x = _ |- _ => rewrite H1 in H2; discriminate H2
    end.
Qed.
